(** * agnostica: request execution, gateway liveness, entity cache, mention fill

    A shallow embedding of the resilient core of [agnostica]
    ([http.py], [gateway.py], [mixins.py]) together with the properties
    its specification states about it.

    Conventions.
    - An [await] on a collaborator (the aiohttp session, the server object,
      the platform adapter) is a question put to an environment, which
      answers with a value or with a raised exception.
    - Every such question is recorded in a trace, so that "how many fetches
      were issued" is a property of the returned trace.
    - Exceptions are values of [exn]; a computation ends in [Return] or
      [Raise]. *)

From Stdlib Require Import ZArith QArith List String Bool Lia.
From stdpp Require Import base option list strings pretty gmap.
Import ListNotations.

Close Scope Q_scope.
Open Scope string_scope.
Open Scope list_scope.

(** ** errors.py and the built-in exceptions the code raises or catches *)

(** The [retry-after] header as line 229 meets it: absent, a text that
    [float] reads as a number of seconds, or a text [float] rejects.  (The
    texts [float] reads as an infinity or as a NaN are left out.) *)
Inductive header_value : Type :=
| Absent
| Seconds (q : Q)
| NotANumber (raw : string).

(** What can go wrong while the body is received: [response.read()] and
    [response.text(encoding='utf-8')] fail when the payload is cut short
    ([aiohttp.ClientPayloadError]), when the connection is lost
    ([aiohttp.ClientOSError], an [OSError]) or, for [text], when the bytes
    are not UTF-8 ([UnicodeDecodeError], a [ValueError]). *)
Inductive body_error : Type :=
| PayloadCut (msg : string)
| ConnectionLost (errno : Z)
| NotUtf8 (msg : string).

(** What can go wrong in [json.loads]: the text is no JSON document
    ([json.JSONDecodeError], a [ValueError]) or it nests too deep
    ([RecursionError], a [RuntimeError]). *)
Inductive json_error : Type :=
| NotJson (msg : string)
| TooDeep.

(** What [request] reads of an [aiohttp.ClientResponse]: the status, the
    two headers it looks at, the body, and how receiving and decoding that
    body fare: [read_failure] is the exception [response.read()] or
    [response.text()] raises, if any; [json_failure] is the exception
    [json.loads] raises on the text, if any. *)
Record Response : Type := mkRawResponse {
  status : Z;
  content_type : option string;
  retry_after_header : header_value;
  body : string;
  read_failure : option body_error;
  json_failure : option json_error
}.

(** A response whose body is received and decoded without error and whose
    [retry-after] header, when present, is a number. *)
Definition mkResponse (status : Z) (content_type : option string)
    (retry_after : option Q) (body : string) : Response :=
  mkRawResponse status content_type
    (match retry_after with Some q => Seconds q | None => Absent end)
    body None None.

(** The [retry-after] header read as a number, when it is one. *)
Definition retry_after (r : Response) : option Q :=
  match retry_after_header r with
  | Seconds q => Some q
  | Absent | NotANumber _ => None
  end.

(** The value bound to [data] in [request]: raw bytes for media, the
    decoded JSON document for [application/json] (kept symbolic: [Json s]
    is [json.loads(s)]), the text otherwise. *)
Inductive Data : Type :=
| Bytes (raw : string)
| Json (text : string)
| Text (text : string).

(** The classes of errors.py that derive from [HTTPException]. *)
Inductive http_class : Type :=
| HTTPException_
| Forbidden
| NotFound
| PlatformServerError.

Inductive exn : Type :=
| HTTPException (cls : http_class) (r : Response) (d : Data)
| OSError (errno : Z)
| WSServerHandshakeError (msg : string)
| TimeoutError
| KeyError (key : string)
| AttributeError (attr : string)
| TypeError (msg : string)
| ValueError (msg : string)
| RuntimeError (msg : string)
| ClientPayloadError (msg : string)
| RecursionError.

(** The exception a failed read raises.  [aiohttp.ClientOSError] is an
    [OSError] and [UnicodeDecodeError] a [ValueError]; no handler of the
    code tells them from their base class. *)
Definition raised_by_read (b : body_error) : exn :=
  match b with
  | PayloadCut msg => ClientPayloadError msg
  | ConnectionLost errno => OSError errno
  | NotUtf8 msg => ValueError msg
  end.

(** The exception a failed [json.loads] raises.  [json.JSONDecodeError]
    is a [ValueError]; [RecursionError] is a [RuntimeError] with a message
    of the interpreter's own. *)
Definition raised_by_json (j : json_error) : exn :=
  match j with
  | NotJson msg => ValueError msg
  | TooDeep => RecursionError
  end.

(** [except HTTPException] catches the class and its subclasses. *)
Definition is_HTTPException (e : exn) : bool :=
  match e with HTTPException _ _ _ => true | _ => false end.

Inductive result (A : Type) : Type :=
| Return (a : A)
| Raise (e : exn).
Arguments Return {A} a.
Arguments Raise {A} e.

(** ** http.py: HTTPClientBase.request *)

Module HTTPClientBase.

(** One answer of [self.session.request(...)]. *)
Inductive attempt : Type :=
| Responded (r : Response)
| Failed (e : exn).

(** The remote end: what the [tries]-th call of [session.request]
    yields. *)
Definition server : Type := nat -> attempt.

Inductive event : Type :=
| EvRequest (tries : nat)
| EvSleep (seconds : Q).

(** [1 + tries * 2] *)
Definition backoff (tries : nat) : Q :=
  inject_Z (1 + Z.of_nat tries * 2).

(** [s.startswith(('image/', 'video/'))] *)
Definition is_media (s : string) : bool :=
  String.prefix "image/" s || String.prefix "video/" s.

(** [json_or_text]: the text is read first; the header lookup raises
    [KeyError] when the header is absent, which the function swallows;
    [json.loads] is not guarded. *)
Definition json_or_text (r : Response) : result Data :=
  match read_failure r with
  | Some b => Raise (raised_by_read b)
  | None =>
      match content_type r with
      | Some ct =>
          if String.eqb ct "application/json" then
            match json_failure r with
            | Some j => Raise (raised_by_json j)
            | None => Return (Json (body r))
            end
          else Return (Text (body r))
      | None => Return (Text (body r))
      end
  end.

(** Lines 217-220: how [data] is read off the response. *)
Definition read_body (r : Response) : result Data :=
  if is_media (default "" (content_type r)) then
    match read_failure r with
    | Some b => Raise (raised_by_read b)
    | None => Return (Bytes (body r))
    end
  else json_or_text r.

(** The value lines 217-220 bind to [data] when nothing fails. *)
Definition read_data (r : Response) : Data :=
  if is_media (default "" (content_type r)) then Bytes (body r)
  else match content_type r with
       | Some ct => if String.eqb ct "application/json" then Json (body r)
                    else Text (body r)
       | None => Text (body r)
       end.

(** Line 229: [float(retry_after) if retry_after is not None else
    (1 + tries * 2)]. *)
Definition rate_limit_delay (r : Response) (tries : nat) : result Q :=
  match retry_after_header r with
  | Absent => Return (backoff tries)
  | Seconds q => Return q
  | NotANumber raw =>
      Raise (ValueError ("could not convert string to float: '" +:+ raw +:+ "'"))
  end.

(** [response.status in {500, 502, 504, 524}] *)
Definition unconditional_retry (s : Z) : bool :=
  existsb (Z.eqb s) [500; 502; 504; 524]%Z.

(** [exc.errno in (54, 10054)] *)
Definition connection_reset (errno : Z) : bool :=
  existsb (Z.eqb errno) [54; 10054]%Z.

(** Lines 255-262: what follows the [for] loop. *)
Definition out_of_retries (last : option (Response * Data)) : result Data :=
  match last with
  | Some (r, d) =>
      if (500 <=? status r)%Z then Raise (HTTPException PlatformServerError r d)
      else Raise (HTTPException HTTPException_ r d)
  | None => Raise (RuntimeError "Unreachable code in HTTP handling")
  end.

(** The body of [for tries in range(5)], by recursion on the values of
    [tries] still to come.  [last] is the pair [response], [data] as the
    previous iterations left it; [tr] is the trace so far. *)
Fixpoint attempts (srv : server) (todo : list nat)
    (last : option (Response * Data)) (tr : list event)
    : result Data * list event :=
  match todo with
  | [] => (out_of_retries last, tr)
  | tries :: todo' =>
      let tr := tr ++ [EvRequest tries] in
      match srv tries with
      | Failed (OSError errno) =>
          if (tries <? 4)%nat && connection_reset errno
          then attempts srv todo' last (tr ++ [EvSleep (backoff tries)])
          else (Raise (OSError errno), tr)
      | Failed e => (Raise e, tr)
      | Responded r =>
          match read_body r with
          | Raise e => (Raise e, tr)
          | Return d =>
              if (200 <=? status r)%Z && (status r <? 300)%Z then (Return d, tr)
              else if (status r =? 429)%Z then
                match rate_limit_delay r tries with
                | Raise e => (Raise e, tr)
                | Return wait =>
                    attempts srv todo' (Some (r, d)) (tr ++ [EvSleep wait])
                end
              else if unconditional_retry (status r) then
                attempts srv todo' (Some (r, d))
                         (tr ++ [EvSleep (backoff tries)])
              else if (status r =? 403)%Z then
                (Raise (HTTPException Forbidden r d), tr)
              else if (status r =? 404)%Z then
                (Raise (HTTPException NotFound r d), tr)
              else if (500 <=? status r)%Z then
                (Raise (HTTPException PlatformServerError r d), tr)
              else (Raise (HTTPException HTTPException_ r d), tr)
          end
      end
  end.

(** [request]: [response] and [data] start as [None]; [range(5)]. *)
Definition request (srv : server) : result Data * list event :=
  attempts srv (seq 0 5) None [].

(** Number of HTTP attempts in a trace. *)
Definition is_request (e : event) : bool :=
  match e with EvRequest _ => true | EvSleep _ => false end.

Definition n_attempts (tr : list event) : nat :=
  length (List.filter is_request tr).

(** Total time spent in [asyncio.sleep], a lower bound on the time the
    call takes. *)
Definition slept (tr : list event) : Q :=
  fold_right (fun e acc => match e with EvSleep d => Qplus d acc | _ => acc end)
             (inject_Z 0) tr.

End HTTPClientBase.

(** ** http.py: handle_message_parameters *)

(** [utils.MISSING]: the sentinel that tells an argument left out from one
    given as [None].  The sentinel is falsy. *)
Inductive arg (A : Type) : Type :=
| MISSING
| Given (a : A).
Arguments MISSING {A}.
Arguments Given {A} a.

(** [x is not MISSING] *)
Definition is_not_MISSING {A} (x : arg A) : bool :=
  match x with MISSING => false | Given _ => true end.

(** A JSON-able Python value, as far as the payload needs one. *)
#[warnings="-register-all"]
Inductive value : Type :=
| VNone
| VBool (b : bool)
| VStr (s : string)
| VList (l : list value)
| VDict (d : list (string * value)).

(** A Python [dict] with string keys: the entries in insertion order. *)
Definition odict (V : Type) : Type := list (string * V).

(** [d[k] = v]: an existing key keeps its place and takes the new value, a
    new key goes last. *)
Fixpoint dict_set {V} (d : odict V) (k : string) (v : V) : odict V :=
  match d with
  | [] => [(k, v)]
  | (k', v') :: d' =>
      if String.eqb k' k then (k, v) :: d' else (k', v') :: dict_set d' k v
  end.

(** [d.get(k)] *)
Fixpoint dict_get {V} (d : odict V) (k : string) : option V :=
  match d with
  | [] => None
  | (k', v') :: d' => if String.eqb k' k then Some v' else dict_get d' k
  end.

Definition dict : Type := odict value.

(** [file.File], by the two attributes the function reads. *)
Record File : Type := mkFile {
  fp : string;
  filename : option string
}.

(** [embed.Embed] is not part of the sources at hand; an embed is taken
    with the dictionary its [to_dict] returns. *)
Record Embed : Type := mkEmbed {
  to_dict : dict
}.

(** One element of the [multipart] list.  [json.dumps] is kept symbolic:
    the first part carries the payload it serialises. *)
Inductive Part : Type :=
| PayloadJson (name : string) (dumped : dict)
| FilePart (name : string) (contents : string) (fname : option string).

Module MultipartParameters.
Record t : Type := mk {
  payload : option dict;
  multipart : list Part;
  files : arg (list File)
}.
End MultipartParameters.

(** The keyword arguments of [handle_message_parameters], with the
    defaults of its signature in [defaults]. *)
Module kwargs.
Record t : Type := mk {
  content : arg (option string);
  username : arg string;
  avatar_url : arg string;
  file : arg File;
  files : arg (list File);
  embed : arg (option Embed);
  embeds : arg (list Embed);
  reply_to : arg (list string);
  silent : option bool;
  private : option bool;
  hide_preview_urls : arg (list string)
}.

Definition defaults : t :=
  mk MISSING MISSING MISSING MISSING MISSING MISSING MISSING MISSING
     None None MISSING.
End kwargs.

(** Truth value of a string argument: [MISSING] and the empty string are
    falsy. *)
Definition truthy_str (x : arg string) : bool :=
  match x with
  | Given s => negb (String.eqb s "")
  | MISSING => false
  end.

(** Truth value of [files]: [MISSING] and the empty sequence are falsy. *)
Definition truthy_files (x : arg (list File)) : bool :=
  match x with
  | Given (_ :: _) => true
  | _ => false
  end.

Definition VStrs (l : list string) : value := VList (map VStr l).

(** [for index, file in enumerate(files)], from [index] on. *)
Fixpoint file_parts (index : nat) (fs : list File) : list Part :=
  match fs with
  | [] => []
  | f :: fs' =>
      FilePart ("files[" +:+ pretty index +:+ "]") (fp f) (filename f)
        :: file_parts (S index) fs'
  end.

(** Lines 82-116: the payload dictionary, once the argument checks are
    passed. *)
Definition build_payload (a : kwargs.t) : dict :=
  let payload : dict := [] in
  let payload :=
    match kwargs.embeds a with
    | Given es => dict_set payload "embeds" (VList (map (fun e => VDict (to_dict e)) es))
    | MISSING => payload
    end in
  let payload :=
    match kwargs.embed a with
    | Given None => dict_set payload "embeds" (VList [])
    | Given (Some e) => dict_set payload "embeds" (VList [VDict (to_dict e)])
    | MISSING => payload
    end in
  let payload :=
    match kwargs.content a with
    | Given (Some c) => dict_set payload "content" (VStr c)
    | Given None => dict_set payload "content" VNone
    | MISSING => payload
    end in
  let payload :=
    match kwargs.reply_to a with
    | Given ids => dict_set payload "replyMessageIds" (VStrs ids)
    | MISSING => payload
    end in
  let payload :=
    match kwargs.silent a with
    | Some b => dict_set payload "isSilent" (VBool b)
    | None => payload
    end in
  let payload :=
    match kwargs.private a with
    | Some b => dict_set payload "isPrivate" (VBool b)
    | None => payload
    end in
  let payload :=
    match kwargs.hide_preview_urls a with
    | Given urls => dict_set payload "hiddenLinkPreviewUrls" (VStrs urls)
    | MISSING => payload
    end in
  let payload :=
    if truthy_str (kwargs.username a)
    then match kwargs.username a with
         | Given u => dict_set payload "username" (VStr u)
         | MISSING => payload
         end
    else payload in
  if truthy_str (kwargs.avatar_url a)
  then match kwargs.avatar_url a with
       | Given u => dict_set payload "avatar_url" (VStr u)
       | MISSING => payload
       end
  else payload.

Definition handle_message_parameters (a : kwargs.t)
    : result MultipartParameters.t :=
  if is_not_MISSING (kwargs.files a) && is_not_MISSING (kwargs.file a)
  then Raise (TypeError "Cannot mix file and files keyword arguments.")
  else if is_not_MISSING (kwargs.embeds a) && is_not_MISSING (kwargs.embed a)
  then Raise (TypeError "Cannot mix embed and embeds keyword arguments.")
  else
    let files := match kwargs.file a with
                 | Given f => Given [f]
                 | MISSING => kwargs.files a
                 end in
    if match kwargs.embeds a with
       | Given es => (10 <? length es)%nat
       | MISSING => false
       end
    then Raise (ValueError "embeds has a maximum of 10 elements.")
    else
      let payload := build_payload a in
      if truthy_files files
      then Return (MultipartParameters.mk None
                     (PayloadJson "payload_json" payload
                        :: file_parts 0 (match files with Given fs => fs | MISSING => [] end))
                     files)
      else Return (MultipartParameters.mk (Some payload) [] files).

(** ** The entity cache held by HTTPClientBase *)

(** The domain objects are outside this development; each is taken with
    the identifiers the cache and [Mentions.fill] read from it. *)
Record User : Type := mkUser { User_id : string }.
Record Member : Type := mkMember { Member_server_id : string; Member_id : string }.
Record Role : Type := mkRole { Role_server_id : string; Role_id : string }.
Record Channel : Type := mkChannel { Channel_server_id : string; Channel_id : string }.
Record Message : Type := mkMessage { Message_id : string; Message_content : string }.

Module Client.

(** The state [HTTPClientBase.__init__] sets up, as far as the cache
    goes.  [_messages] is a [dict], whose order of insertion matters, so
    it is kept as an ordered dictionary.  The collections the source
    keeps per server behind [_servers] are laid out flat, keyed by server
    identifier and entity identifier. *)
Record t : Type := mk {
  max_messages : option nat;
  _users : gmap string User;
  _server_members : gmap (string * string) Member;
  _server_roles : gmap (string * string) Role;
  _server_channels : gmap (string * string) Channel;
  _messages : odict Message
}.

(** [HTTPClientBase.__init__(max_messages=...)] *)
Definition __init__ (max_messages : option nat) : t :=
  mk max_messages ∅ ∅ ∅ ∅ [].

(** [HTTPClientBase()], with the default of the signature. *)
Definition default : t := __init__ (Some 1000).

(** Modelled from the spec: the typed accessors of the entity cache are
    called by [mixins.py] and [message.py] but defined in no source file
    at hand.  [get_<kind>(id)] is a pure lookup that never touches the
    network. *)
Definition _get_user (c : t) (id : string) : option User :=
  _users c !! id.

(** Modelled from the spec: the lookup of a member of a server, the
    accessor [mixins.py] calls; a pure lookup by identifier. *)
Definition _get_server_member (c : t) (server_id id : string) : option Member :=
  _server_members c !! (server_id, id).

(** Modelled from the spec: the lookup of a role of a server, the
    accessor [mixins.py] calls; a pure lookup by identifier. *)
Definition _get_server_role (c : t) (server_id id : string) : option Role :=
  _server_roles c !! (server_id, id).

(** Modelled from the spec: the lookup of a channel or thread of a
    server, the accessor [mixins.py] calls; a pure lookup by
    identifier. *)
Definition _get_server_channel_or_thread (c : t) (server_id id : string)
    : option Channel :=
  _server_channels c !! (server_id, id).

(** Modelled from the spec: the lookup of a message, the accessor
    [message.py] calls; a pure lookup by identifier. *)
Definition _get_message (c : t) (id : string) : option Message :=
  dict_get (_messages c) id.

(** Modelled from the spec: storing a user, the accessor [mixins.py]
    calls; the entity is stored by identifier, overwriting any prior
    entry of the same identifier. *)
Definition add_to_user_cache (c : t) (u : User) : t :=
  mk (max_messages c) (<[User_id u := u]> (_users c)) (_server_members c)
     (_server_roles c) (_server_channels c) (_messages c).

(** Modelled from the spec: storing a member, the accessor [mixins.py]
    calls; stored by identifier, overwriting any prior entry. *)
Definition add_to_member_cache (c : t) (m : Member) : t :=
  mk (max_messages c) (_users c)
     (<[(Member_server_id m, Member_id m) := m]> (_server_members c))
     (_server_roles c) (_server_channels c) (_messages c).

(** Modelled from the spec: storing a role, the accessor [mixins.py]
    calls; stored by identifier, overwriting any prior entry. *)
Definition add_to_role_cache (c : t) (r : Role) : t :=
  mk (max_messages c) (_users c) (_server_members c)
     (<[(Role_server_id r, Role_id r) := r]> (_server_roles c))
     (_server_channels c) (_messages c).

(** Modelled from the spec: storing a channel, the accessor [mixins.py]
    calls; stored by identifier, overwriting any prior entry. *)
Definition add_to_server_channel_cache (c : t) (ch : Channel) : t :=
  mk (max_messages c) (_users c) (_server_members c) (_server_roles c)
     (<[(Channel_server_id ch, Channel_id ch) := ch]> (_server_channels c))
     (_messages c).

(** Modelled from the spec: the eviction rule of the message cache, which
    is in no source file at hand ([__init__] only records [max_messages]
    and creates the empty [_messages] dictionary).  An insertion that
    takes the cache beyond its capacity evicts the oldest-inserted
    entry; without a capacity ([max_messages=None]) nothing is
    evicted. *)
Definition evict_oldest (cap : option nat) (d : odict Message) : odict Message :=
  match cap with
  | Some n => if (n <? length d)%nat then tail d else d
  | None => d
  end.

(** Modelled from the spec: [create_message], called by [message.py] and
    defined in no source file at hand.  The message is stored by
    identifier, overwriting any prior entry of the same identifier, and
    the insertion enforces the capacity rule. *)
Definition create_message (c : t) (m : Message) : t :=
  mk (max_messages c) (_users c) (_server_members c) (_server_roles c)
     (_server_channels c)
     (evict_oldest (max_messages c) (dict_set (_messages c) (Message_id m) m)).

End Client.

(** ** gateway.py *)

(** A reading of [time.perf_counter()], in seconds. *)
Definition time : Type := Q.

(** A [float] that may be [float('inf')]. *)
Inductive seconds : Type :=
| inf
| finite (s : Q).

Inductive log_record : Type :=
| log_debug (msg : string)
| log_info (msg : string)
| log_error (msg : string)
| log_warning (msg : string) (arg : Q).

(** The stall and lag warnings among the records of a log. *)
Definition is_warning (r : log_record) : bool :=
  match r with log_warning _ _ => true | _ => false end.

Definition warnings (log : list log_record) : list log_record :=
  List.filter is_warning log.

Module Heartbeater.

(** The attributes [Heartbeater.__init__] assigns ([ws] is the socket
    the probes go through; only its event loop matters here, and that is
    part of the environment of [run]).  [other_attributes] holds what
    else has been assigned to the instance, by name: [__init__] assigns
    nothing else. *)
Record t : Type := mk {
  interval : Q;
  msg : string;
  block_msg : string;
  behind_msg : string;
  _stop_ev : bool;
  _last_ping : time;
  _last_pong : time;
  latency : seconds;
  other_attributes : odict Z
}.

(** [Heartbeater.__init__(ws, interval)]; [now1] and [now2] are the two
    readings of the clock it takes. *)
Definition __init__ (interval : Q) (now1 now2 : time) : t :=
  mk interval
     "Keeping websocket alive with sequence %s."
     "Websocket heartbeat blocked for longer than %s seconds."
     "Can't keep up, websocket is %.1fs behind."
     false now1 now2 inf [].

(** [self._main_thread_id]: neither the class nor [threading.Thread]
    defines the name, so the lookup goes to the instance and raises
    [AttributeError] when it is not there. *)
Definition _main_thread_id (self : t) : result Z :=
  match dict_get (other_attributes self) "_main_thread_id" with
  | Some tid => Return tid
  | None => Raise (AttributeError "_main_thread_id")
  end.

Definition set_stop_ev (self : t) (b : bool) : t :=
  mk (interval self) (msg self) (block_msg self) (behind_msg self)
     b (_last_ping self) (_last_pong self) (latency self)
     (other_attributes self).

Definition set_last_ping (self : t) (now : time) : t :=
  mk (interval self) (msg self) (block_msg self) (behind_msg self)
     (_stop_ev self) now (_last_pong self) (latency self)
     (other_attributes self).

(** [stop] *)
Definition stop (self : t) : t := set_stop_ev self true.

(** [record_pong], called at clock reading [now]. *)
Definition record_pong (self : t) (now : time) : t * list log_record :=
  let lat := Qminus now (_last_ping self) in
  let self' := mk (interval self) (msg self) (block_msg self) (behind_msg self)
                  (_stop_ev self) (_last_ping self) now (finite lat)
                  (other_attributes self) in
  (self', if Qlt_le_dec (inject_Z 10) lat
          then [log_warning (behind_msg self) lat] else []).

(** What one call of [f.result(10)] does: it returns, it times out
    after ten seconds, or it raises what the probe raised. *)
Inductive poll : Type :=
| Done
| Timeout
| Failed (e : exn).

(** Lines 86-87, [coro = self.ws.ping()] and
    [asyncio.run_coroutine_threadsafe(coro, self.ws.loop)]: either raises
    (the socket has no [ping], the loop is closed), or the probe is
    scheduled and the successive calls of [f.result(10)] do [answers]. *)
Inductive scheduling : Type :=
| NotScheduled (e : exn)
| Scheduled (answers : list poll).

(** The environment of one turn of the [while] loop of [run]:
    - [stop_requested]: [stop] was called from another context before
      the interval elapsed;
    - [probe]: how scheduling the probe and waiting for it go;
    - [frames]: [sys._current_frames()], by thread identifier, each frame
      given by its formatted stack;
    - [now]: the clock when the probe has been sent. *)
Record turn : Type := mkTurnOf {
  stop_requested : bool;
  probe : scheduling;
  frames : Z -> option string;
  now : time
}.

(** A turn whose probe is scheduled; [polls] is what the successive
    calls of [f.result(10)] do. *)
Definition mkTurn (stop_requested : bool) (polls : list poll)
    (frames : Z -> option string) (now : time) : turn :=
  mkTurnOf stop_requested (Scheduled polls) frames now.

(** The answers of [f.result(10)] in a turn, none when the probe was
    not scheduled. *)
Definition polls (tn : turn) : list poll :=
  match probe tn with
  | Scheduled answers => answers
  | NotScheduled _ => []
  end.

(** How the wait for the probe ends. *)
Inductive waited : Type :=
| Sent
| Caught (e : exn)
| Blocked.

(** Lines 96-103: the handler of [concurrent.futures.TimeoutError].
    It yields the message to log, or the exception that escapes it. *)
Definition stall_message (self : t) (frames : Z -> option string) : result string :=
  match _main_thread_id self with
  | Raise e => Raise e
  | Return tid =>
      match frames tid with
      | None => Return (block_msg self)
      | Some stack =>
          Return (block_msg self
                    +:+ "\nLoop thread traceback (most recent call last):\n"
                    +:+ stack)
      end
  end.

(** Lines 89-103: [total = 0; while True: ...].  The recursion is on the
    answers the environment has for [f.result(10)]; when they run out
    with the probe neither sent nor failed, the thread is still
    [Blocked] in the call.  [concurrent.futures.TimeoutError] is the
    built-in [TimeoutError], so the inner [except] clause also catches a
    [TimeoutError] the probe itself raised and [f.result] hands on; any
    other exception leaves the inner [try]. *)
Fixpoint wait_result (self : t) (frames : Z -> option string)
    (ps : list poll) (total : Z) (log : list log_record)
    : waited * list log_record :=
  match ps with
  | [] => (Blocked, log)
  | Done :: _ => (Sent, log)
  | (Timeout | Failed TimeoutError) :: ps' =>
      let total := (total + 10)%Z in
      match stall_message self frames with
      | Raise e => (Caught e, log)
      | Return m => wait_result self frames ps' total
                      (log ++ [log_warning m (inject_Z total)])
      end
  | Failed e :: _ => (Caught e, log)
  end.

(** Where the thread stands. *)
Inductive status : Type :=
| Running
| Stopped
| Waiting
| Died (e : exn).

(** [run], over the turns the environment provides.  [Running]: the
    turns ran out with the loop still going.  [Stopped]: the loop was
    left ([except Exception: self.stop()] sets the event, so the next
    [self._stop_ev.wait] returns at once and ends the loop).
    [Waiting]: the thread sits in [f.result].  [Died e]: scheduling the
    probe raised [e]; lines 86-87 stand before the [try], so the
    exception leaves [run] and [stop] is not called. *)
Fixpoint loop (self : t) (turns : list turn) (log : list log_record)
    : t * list log_record * status :=
  match turns with
  | [] => (self, log, Running)
  | tn :: turns' =>
      if _stop_ev self || stop_requested tn
      then (set_stop_ev self true, log, Stopped)
      else
        let log := log ++ [log_debug "Sending heartbeat."] in
        match probe tn with
        | NotScheduled e => (self, log, Died e)
        | Scheduled answers =>
            match wait_result self (frames tn) answers 0 log with
            | (Sent, log) => loop (set_last_ping self (now tn)) turns' log
            | (Caught _, log) => (stop self, log, Stopped)
            | (Blocked, log) => (self, log, Waiting)
            end
        end
  end.

Definition run (self : t) (turns : list turn) : t * list log_record * status :=
  loop self turns [log_debug "Starting heartbeat thread."].

End Heartbeater.

Module WebSocket.

(** [WebSocket.__init__]: the socket is the environment's; the object
    keeps its heartbeater and close code. *)
Record t : Type := mk {
  _heartbeater : option Heartbeater.t;
  _close_code : option Z
}.

Definition __init__ : t := mk None None.

(** The [latency] property. *)
Definition latency (self : t) : seconds :=
  match _heartbeater self with
  | Some h => Heartbeater.latency h
  | None => inf
  end.

Inductive event : Type :=
| EvLog (r : log_record)
| EvPing.

(** [connect]: [handshake] is what [platform.ws_connect()] does.
    [ping] is the method [ping] of the class [cls] the function is
    called on: [None] when the class defines none, as [WebSocket] itself
    (the attribute lookup [ws.ping] then raises [AttributeError] and
    nothing is sent), otherwise what awaiting [ws.ping()] does.  The
    function returns either the connection or, as a value, the handshake
    error. *)
Definition connect (handshake : result unit) (ping : option (result unit))
    : result (t + exn) * list event :=
  match handshake with
  | Raise (WSServerHandshakeError m) =>
      (Return (inr (WSServerHandshakeError m)),
       [EvLog (log_error ("Failed to connect to websocket: " +:+ m))])
  | Raise e => (Raise e, [])
  | Return _ =>
      let tr := [EvLog (log_info "Connected to websocket.")] in
      match ping with
      | None => (Raise (AttributeError "ping"), tr)
      | Some probed =>
          let tr := tr ++ [EvPing] in
          match probed with
          | Raise e => (Raise e, tr)
          | Return _ => (Return (inl __init__), tr)
          end
      end
  end.

Definition pings (tr : list event) : nat :=
  length (List.filter (fun e => match e with EvPing => true | _ => false end) tr).

End WebSocket.

(** ** mixins.py: Mentions *)

Module Mentions.

(** [Mentions.__init__]: the owning server (by identifier, [None] in a
    DM) and the identifiers referenced, in the order of the payload. *)
Record t : Type := mk {
  _server : option string;
  _users : list string;
  _channels : list string;
  _roles : list string;
  everyone : bool;
  here : bool
}.

(** The fetches [fill] can issue. *)
Inductive call : Type :=
| call_fetch_members (server_id : string)
| call_fetch_member (server_id id : string)
| call_get_user (id : string)
| call_fetch_roles (server_id : string)
| call_fetch_role (server_id id : string)
| call_fetch_channel (server_id id : string).

(** The remote end.  The first argument of each answer is the number of
    fetches issued before it, so that a fetch repeated later may be
    answered differently. *)
Record network : Type := mkNetwork {
  fetch_members : nat -> string -> result (list Member);
  fetch_member : nat -> string -> string -> result Member;
  get_user : nat -> string -> result User;
  fetch_roles : nat -> string -> result (list Role);
  fetch_role : nat -> string -> string -> result Role;
  fetch_channel : nat -> string -> string -> result Channel
}.

(** Lines 67-69 and 148-150: the cached user, the member of the server
    taking precedence. *)
Definition cached_user (c : Client.t) (server : option string) (id : string)
    : option (Member + User) :=
  let user := inr <$> Client._get_user c id in
  match server with
  | Some sid =>
      match Client._get_server_member c sid id with
      | Some m => Some (inl m)
      | None => user
      end
  | None => user
  end.

(** The [users] property. *)
Definition users (self : t) (c : Client.t) : list (Member + User) :=
  omap (cached_user c (_server self)) (_users self).

(** The [channels] property. *)
Definition channels (self : t) (c : Client.t) : list Channel :=
  match _server self with
  | None => []
  | Some sid => omap (Client._get_server_channel_or_thread c sid) (_channels self)
  end.

(** The [roles] property ([self._server.get_role] reads the same role
    cache). *)
Definition roles (self : t) (c : Client.t) : list Role :=
  match _server self with
  | None => []
  | Some sid => omap (Client._get_server_role c sid) (_roles self)
  end.

(** [try: x = await fetch except HTTPException: if not ignore_errors:
    raise]: [Return None] when the failure is swallowed.  Any other
    exception propagates. *)
Definition guarded {A} (ignore_errors : bool) (r : result A) : result (option A) :=
  match r with
  | Return a => Return (Some a)
  | Raise e =>
      if is_HTTPException e && ignore_errors then Return None else Raise e
  end.

(** The outcome of a stage of [fill]: how it ended, the cache and the
    fetches issued so far. *)
Definition outcome : Type := result unit * Client.t * list call.

(** [x in ids] *)
Definition id_in (x : string) (ids : list string) : bool :=
  existsb (String.eqb x) ids.

(** Lines 147-168. *)
Fixpoint fill_each_user (net : network) (server : option string)
    (ignore_cache ignore_errors : bool) (refs : list string)
    (c : Client.t) (tr : list call) : outcome :=
  match refs with
  | [] => (Return tt, c, tr)
  | id :: refs' =>
      if ignore_cache || negb (bool_decide (is_Some (cached_user c server id)))
      then
        match server with
        | Some sid =>
            let tr' := tr ++ [call_fetch_member sid id] in
            match guarded ignore_errors (fetch_member net (length tr) sid id) with
            | Raise e => (Raise e, c, tr')
            | Return (Some user) =>
                fill_each_user net server ignore_cache ignore_errors refs'
                  (Client.add_to_member_cache c user) tr'
            | Return None =>
                fill_each_user net server ignore_cache ignore_errors refs' c tr'
            end
        | None =>
            let tr' := tr ++ [call_get_user id] in
            match guarded ignore_errors (get_user net (length tr) id) with
            | Raise e => (Raise e, c, tr')
            | Return (Some user) =>
                fill_each_user net server ignore_cache ignore_errors refs'
                  (Client.add_to_user_cache c user) tr'
            | Return None =>
                fill_each_user net server ignore_cache ignore_errors refs' c tr'
            end
        end
      else fill_each_user net server ignore_cache ignore_errors refs' c tr
  end.

(** The condition of lines 132-137 and 172-177, for a kind with [total]
    references of which [cached] are in the cache. *)
Definition bulk_path (server : option string) (total cached : nat)
    (ignore_cache : bool) : bool :=
  bool_decide (is_Some server)
  && ((5 <=? total - cached)%nat || ((5 <=? total)%nat && ignore_cache)).

(** Lines 130-168. *)
Definition fill_users (net : network) (self : t)
    (ignore_cache ignore_errors : bool) (c : Client.t) (tr : list call) : outcome :=
  match _server self with
  | Some sid =>
      if bulk_path (_server self) (length (_users self)) (length (users self c))
           ignore_cache
      then
        let tr' := tr ++ [call_fetch_members sid] in
        match fetch_members net (length tr) sid with
        | Raise e => (Raise e, c, tr')
        | Return members =>
            (Return tt,
             foldl (fun c member =>
                      if id_in (Member_id member) (_users self)
                      then Client.add_to_member_cache c member else c)
                   c members,
             tr')
        end
      else fill_each_user net (_server self) ignore_cache ignore_errors
             (_users self) c tr
  | None =>
      fill_each_user net (_server self) ignore_cache ignore_errors
        (_users self) c tr
  end.

(** Lines 187-196, with a server attached. *)
Fixpoint fill_each_role (net : network) (sid : string)
    (ignore_cache ignore_errors : bool) (refs : list string)
    (c : Client.t) (tr : list call) : outcome :=
  match refs with
  | [] => (Return tt, c, tr)
  | id :: refs' =>
      if ignore_cache || negb (bool_decide (is_Some (Client._get_server_role c sid id)))
      then
        let tr' := tr ++ [call_fetch_role sid id] in
        match guarded ignore_errors (fetch_role net (length tr) sid id) with
        | Raise e => (Raise e, c, tr')
        | Return (Some role) =>
            fill_each_role net sid ignore_cache ignore_errors refs'
              (Client.add_to_role_cache c role) tr'
        | Return None =>
            fill_each_role net sid ignore_cache ignore_errors refs' c tr'
        end
      else fill_each_role net sid ignore_cache ignore_errors refs' c tr
  end.

(** Lines 170-196.  Without a server the [else] branch reads
    [self._server.id] on [None] for the first reference, if there is
    one. *)
Definition fill_roles (net : network) (self : t)
    (ignore_cache ignore_errors : bool) (c : Client.t) (tr : list call) : outcome :=
  match _server self with
  | Some sid =>
      if bulk_path (_server self) (length (_roles self)) (length (roles self c))
           ignore_cache
      then
        let tr' := tr ++ [call_fetch_roles sid] in
        match fetch_roles net (length tr) sid with
        | Raise e => (Raise e, c, tr')
        | Return fetched =>
            (Return tt,
             foldl (fun c role =>
                      if id_in (Role_id role) (_roles self)
                      then Client.add_to_role_cache c role else c)
                   c fetched,
             tr')
        end
      else fill_each_role net sid ignore_cache ignore_errors (_roles self) c tr
  | None =>
      match _roles self with
      | [] => (Return tt, c, tr)
      | _ :: _ => (Raise (AttributeError "id"), c, tr)
      end
  end.

(** Lines 198-211, with a server attached. *)
Fixpoint fill_each_channel (net : network) (sid : string)
    (ignore_cache ignore_errors : bool) (refs : list string)
    (c : Client.t) (tr : list call) : outcome :=
  match refs with
  | [] => (Return tt, c, tr)
  | id :: refs' =>
      if ignore_cache
         || negb (bool_decide (is_Some (Client._get_server_channel_or_thread c sid id)))
      then
        let tr' := tr ++ [call_fetch_channel sid id] in
        match guarded ignore_errors (fetch_channel net (length tr) sid id) with
        | Raise e => (Raise e, c, tr')
        | Return (Some channel) =>
            fill_each_channel net sid ignore_cache ignore_errors refs'
              (Client.add_to_server_channel_cache c channel) tr'
        | Return None =>
            fill_each_channel net sid ignore_cache ignore_errors refs' c tr'
        end
      else fill_each_channel net sid ignore_cache ignore_errors refs' c tr
  end.

(** Lines 198-211: without a server the loop breaks at once. *)
Definition fill_channels (net : network) (self : t)
    (ignore_cache ignore_errors : bool) (c : Client.t) (tr : list call) : outcome :=
  match _server self with
  | Some sid =>
      fill_each_channel net sid ignore_cache ignore_errors (_channels self) c tr
  | None => (Return tt, c, tr)
  end.

(** [fill]: users, then roles, then channels; an exception that leaves a
    stage leaves [fill]. *)
Definition fill (net : network) (self : t) (ignore_cache ignore_errors : bool)
    (c : Client.t) : outcome :=
  match fill_users net self ignore_cache ignore_errors c [] with
  | (Raise e, c, tr) => (Raise e, c, tr)
  | (Return _, c, tr) =>
      match fill_roles net self ignore_cache ignore_errors c tr with
      | (Raise e, c, tr) => (Raise e, c, tr)
      | (Return _, c, tr) =>
          fill_channels net self ignore_cache ignore_errors c tr
      end
  end.

(** The kinds of reference, and the classification of the fetches. *)
Inductive kind : Type := KUser | KRole | KChannel.

Definition kind_eqb (a b : kind) : bool :=
  match a, b with
  | KUser, KUser | KRole, KRole | KChannel, KChannel => true
  | _, _ => false
  end.

Definition call_kind (x : call) : kind :=
  match x with
  | call_fetch_members _ | call_fetch_member _ _ | call_get_user _ => KUser
  | call_fetch_roles _ | call_fetch_role _ _ => KRole
  | call_fetch_channel _ _ => KChannel
  end.

(** A bulk fetch asks for the whole collection of the server. *)
Definition is_bulk (x : call) : bool :=
  match x with
  | call_fetch_members _ | call_fetch_roles _ => true
  | _ => false
  end.

Definition n_bulk (k : kind) (tr : list call) : nat :=
  length (List.filter (fun x => kind_eqb (call_kind x) k && is_bulk x) tr).

Definition n_individual (k : kind) (tr : list call) : nat :=
  length (List.filter (fun x => kind_eqb (call_kind x) k && negb (is_bulk x)) tr).

(** The test of lines 152, 189 and 204 on the cache [c]: the reference
    is fetched when the cache is ignored or does not hold it. *)
Definition missing_user (c : Client.t) (server : option string)
    (ignore_cache : bool) (id : string) : bool :=
  ignore_cache || negb (bool_decide (is_Some (cached_user c server id))).

Definition missing_role (c : Client.t) (sid : string)
    (ignore_cache : bool) (id : string) : bool :=
  ignore_cache || negb (bool_decide (is_Some (Client._get_server_role c sid id))).

Definition missing_channel (c : Client.t) (sid : string)
    (ignore_cache : bool) (id : string) : bool :=
  ignore_cache
  || negb (bool_decide (is_Some (Client._get_server_channel_or_thread c sid id))).

(** The individual fetch of a user: through the server when there is
    one, through the client otherwise. *)
Definition user_call (server : option string) (id : string) : call :=
  match server with
  | Some sid => call_fetch_member sid id
  | None => call_get_user id
  end.

(** An individual fetch that does not leave [fill]: it returns the
    entity asked for, or fails with an [HTTPException] while
    [ignore_errors] is set. *)
Definition settles {A} (ignore_errors : bool) (ident : A -> string)
    (id : string) (r : result A) : Prop :=
  match r with
  | Return a => ident a = id
  | Raise e => is_HTTPException e && ignore_errors = true
  end.

Definition individual_fetches_settle (net : network) (ignore_errors : bool) : Prop :=
  (forall n sid id, settles ignore_errors Member_id id (fetch_member net n sid id)) /\
  (forall n id, settles ignore_errors User_id id (get_user net n id)) /\
  (forall n sid id, settles ignore_errors Role_id id (fetch_role net n sid id)) /\
  (forall n sid id, settles ignore_errors Channel_id id (fetch_channel net n sid id)).

(** The same, for the individual fetches of the references [refs] of
    one kind only, whenever they are issued. *)
Definition user_fetches_settle (net : network) (ignore_errors : bool)
    (server : option string) (refs : list string) : Prop :=
  match server with
  | Some sid =>
      forall n id, id ∈ refs ->
        settles ignore_errors Member_id id (fetch_member net n sid id)
  | None =>
      forall n id, id ∈ refs ->
        settles ignore_errors User_id id (get_user net n id)
  end.

Definition role_fetches_settle (net : network) (ignore_errors : bool)
    (sid : string) (refs : list string) : Prop :=
  forall n id, id ∈ refs ->
    settles ignore_errors Role_id id (fetch_role net n sid id).

Definition channel_fetches_settle (net : network) (ignore_errors : bool)
    (sid : string) (refs : list string) : Prop :=
  forall n id, id ∈ refs ->
    settles ignore_errors Channel_id id (fetch_channel net n sid id).

(** The fetches of one kind in a trace, in the order they were
    issued. *)
Definition calls_of (k : kind) (tr : list call) : list call :=
  List.filter (fun x => kind_eqb (call_kind x) k) tr.

(** What a stage adds to the trace: a suffix [new] with property [P]. *)
Definition extends (P : call -> Prop) (tr : list call) (o : outcome) : Prop :=
  exists new, o.2 = tr ++ new /\ Forall P new.

End Mentions.

(** ** The conditions handle_message_parameters checks *)

Definition mixes_files (a : kwargs.t) : Prop :=
  kwargs.files a <> MISSING /\ kwargs.file a <> MISSING.

Definition mixes_embeds (a : kwargs.t) : Prop :=
  kwargs.embeds a <> MISSING /\ kwargs.embed a <> MISSING.

Definition too_many_embeds (a : kwargs.t) : Prop :=
  exists es, kwargs.embeds a = Given es /\ 10 < length es.


(** ** Concrete inputs *)

Section RequestInputs.
Import HTTPClientBase.

(** A server answering 503, 503, 201. *)
Definition unavailable_twice_then_created : server :=
  fun tries =>
    match tries with
    | 0 | 1 => Responded (mkResponse 503 (Some "text/plain") None "unavailable")
    | _ => Responded (mkResponse 201 (Some "application/json") None "{}")
    end.

Definition failing_twice_then_created : server :=
  fun tries =>
    match tries with
    | 0 => Responded (mkResponse 500 None None "")
    | 1 => Responded (mkResponse 502 None None "")
    | _ => Responded (mkResponse 201 (Some "application/json") None "{}")
    end.

Definition always_500 : server :=
  fun _ => Responded (mkResponse 500 None None "").

(** A server answering 500 five times; the fifth answer announces JSON
    and carries an HTML error page, which [json.loads] rejects. *)
Definition server_errors_last_undecodable : server :=
  fun tries =>
    match tries with
    | 4 => Responded (mkRawResponse 500 (Some "application/json") Absent
                        "<html>Internal Server Error</html>" None
                        (Some (NotJson "Expecting value: line 1 column 1 (char 0)")))
    | _ => Responded (mkResponse 500 None None "")
    end.

End RequestInputs.

(** Arguments that mix [file] with [files] and carry eleven embeds. *)
Definition eleven_embeds : list Embed := repeat (mkEmbed []) 11.

Definition mixed_files_eleven_embeds : kwargs.t :=
  kwargs.mk MISSING MISSING MISSING
    (Given (mkFile "bytes" (Some "a.png")))
    (Given [mkFile "bytes" (Some "b.png")])
    MISSING (Given eleven_embeds) MISSING None None MISSING.

(** A plain message with one attachment and two embeds. *)
Definition one_file_two_embeds : kwargs.t :=
  kwargs.mk (Given (Some "hello")) MISSING MISSING
    (Given (mkFile "bytes" (Some "a.png"))) MISSING
    MISSING (Given [mkEmbed []; mkEmbed []]) MISSING (Some true) None MISSING.

(** Eleven embeds and nothing mixed. *)
Definition only_eleven_embeds : kwargs.t :=
  kwargs.mk MISSING MISSING MISSING MISSING MISSING
    MISSING (Given eleven_embeds) MISSING None None MISSING.

(** The message numbered [n]. *)
Definition numbered_message (n : nat) : Message :=
  mkMessage (pretty n) "".

(** A client with the default capacity after the messages 0 .. 999 have
    been inserted. *)
Definition full_client : Client.t :=
  foldl Client.create_message Client.default (map numbered_message (seq 0 1000)).

Section FillInputs.
Import Mentions.

(** A remote end that returns what it is asked for. *)
Definition obliging : network :=
  mkNetwork
    (fun _ sid => Return [])
    (fun _ sid id => Return (mkMember sid id))
    (fun _ id => Return (mkUser id))
    (fun _ sid => Return [])
    (fun _ sid id => Return (mkRole sid id))
    (fun _ sid id => Return (mkChannel sid id)).

Definition forbidden : exn :=
  HTTPException Forbidden (mkResponse 403 None None "") (Text "").

(** A remote end that refuses the member list. *)
Definition refusing_member_list : network :=
  mkNetwork
    (fun _ sid => Raise forbidden)
    (fun _ sid id => Return (mkMember sid id))
    (fun _ id => Return (mkUser id))
    (fun _ sid => Return [])
    (fun _ sid id => Return (mkRole sid id))
    (fun _ sid id => Return (mkChannel sid id)).

(** A remote end that refuses every single member. *)
Definition refusing_members : network :=
  mkNetwork
    (fun _ sid => Return [])
    (fun _ sid id => Raise forbidden)
    (fun _ id => Return (mkUser id))
    (fun _ sid => Return [])
    (fun _ sid id => Return (mkRole sid id))
    (fun _ sid id => Return (mkChannel sid id)).

(** A remote end that returns the members it is asked for and refuses
    every role and every channel. *)
Definition users_only : network :=
  mkNetwork
    (fun _ sid => Return [])
    (fun _ sid id => Return (mkMember sid id))
    (fun _ id => Return (mkUser id))
    (fun _ sid => Raise forbidden)
    (fun _ sid id => Raise forbidden)
    (fun _ sid id => Raise forbidden).

(** A remote end whose role list holds a role that is referenced and
    one that is not. *)
Definition listing_roles : network :=
  mkNetwork
    (fun _ sid => Return [])
    (fun _ sid id => Return (mkMember sid id))
    (fun _ id => Return (mkUser id))
    (fun _ sid => Return [mkRole sid "r1"; mkRole sid "r7"])
    (fun _ sid id => Return (mkRole sid id))
    (fun _ sid id => Return (mkChannel sid id)).

Definition five_channels : Mentions.t :=
  Mentions.mk (Some "s") [] ["c1"; "c2"; "c3"; "c4"; "c5"] [] false false.

Definition five_users : Mentions.t :=
  Mentions.mk (Some "s") ["u1"; "u2"; "u3"; "u4"; "u5"] [] [] false false.

Definition six_users : Mentions.t :=
  Mentions.mk (Some "s") ["u1"; "u2"; "u3"; "u4"; "u5"; "u6"] [] [] false false.

Definition three_users : Mentions.t :=
  Mentions.mk (Some "s") ["u1"; "u2"; "u3"] [] [] false false.

Definition two_roles_three_channels : Mentions.t :=
  Mentions.mk (Some "s") [] ["c1"; "c2"; "c3"] ["r1"; "r2"] false false.

Definition six_roles : Mentions.t :=
  Mentions.mk (Some "s") [] [] ["r1"; "r2"; "r3"; "r4"; "r5"; "r6"] false false.

End FillInputs.

(** ** More of http.py: the waits, the trace and the headers of request *)

Section MoreRequest.
Import HTTPClientBase.

(** Lines 228-229: the wait after a 429 whose [retry-after] header is
    absent or a number: the server's [retry-after] when it states one,
    [1 + tries * 2] otherwise. *)
Definition rate_limit_wait (r : Response) (tries : nat) : Q :=
  match retry_after r with
  | Some ra => ra
  | None => backoff tries
  end.

(** [300 > status >= 200] *)
Definition is_success (s : Z) : bool :=
  (200 <=? s)%Z && (s <? 300)%Z.

(** Lines 209-244: what the loop does with the answer to attempt
    [tries]: the wait before the next attempt when it retries, [None]
    when the answer ends the call (a failure that is not retried, a body
    that cannot be read, a success, a [retry-after] that is no number, a
    status that is raised). *)
Definition retry_wait (a : attempt) (tries : nat) : option Q :=
  match a with
  | Failed (OSError errno) =>
      if (tries <? 4)%nat && connection_reset errno
      then Some (backoff tries) else None
  | Failed _ => None
  | Responded r =>
      match read_body r with
      | Raise _ => None
      | Return _ =>
          if is_success (status r) then None
          else if (status r =? 429)%Z then
            match rate_limit_delay r tries with
            | Return wait => Some wait
            | Raise _ => None
            end
          else if unconditional_retry (status r) then Some (backoff tries)
          else None
      end
  end.

(** Lines 246-260: the class of the exception raised for a response
    with status [s] that is neither a success nor retried further. *)
Definition error_class (s : Z) : http_class :=
  if (s =? 403)%Z then Forbidden
  else if (s =? 404)%Z then NotFound
  else if (500 <=? s)%Z then PlatformServerError
  else HTTPException_.

(** What [response], [data] hold between two turns: a response of the
    server that was retried, with its data. *)
Definition retried_response (srv : server) (last : option (Response * Data)) : Prop :=
  match last with
  | None => True
  | Some (r, d) =>
      d = read_data r /\ is_success (status r) = false /\
      (exists i, srv i = Responded r) /\
      ((status r = 429)%Z \/ unconditional_retry (status r) = true)
  end.

(** The trace of attempts [from], [from + 1], ... each followed by the
    wait of that place in [waits]. *)
Fixpoint retried (from : nat) (waits : list Q) : list event :=
  match waits with
  | [] => []
  | w :: waits' => EvRequest from :: EvSleep w :: retried (S from) waits'
  end.

(** Lines 180-191: the headers [request] sends.  [token] is
    [self.token], [json] tells whether a [json] keyword was given. *)
Definition request_headers (user_agent : string) (token : option string)
    (json : bool) : odict string :=
  let headers := [("User-Agent", user_agent)] in
  let headers :=
    match token with
    | Some t => if negb (String.eqb t "")
                then dict_set headers "Authorization" ("Bearer " +:+ t)
                else headers
    | None => headers
    end in
  if json then dict_set headers "Content-Type" "application/json" else headers.

(** Lines 200-202: the copy of the headers that goes to the log. *)
Definition log_headers (headers : odict string) : odict string :=
  match dict_get headers "Authorization" with
  | Some _ => dict_set headers "Authorization" "Bearer [removed]"
  | None => headers
  end.

(** A connection reset, a rate limit with a stated wait, a server
    error, then a success. *)
Definition bumpy : server :=
  fun tries =>
    match tries with
    | 0 => Failed (OSError 54)
    | 1 => Responded (mkResponse 429 None (Some (7 # 2)%Q) "")
    | 2 => Responded (mkResponse 502 None None "")
    | _ => Responded (mkResponse 200 (Some "image/png") None "png")
    end.


(** The connection is reset on every attempt. *)
Definition always_reset : server := fun _ => Failed (OSError 10054).


(** A success whose JSON body nests deeper than the decoder goes. *)
Definition deeply_nested : server :=
  fun _ => Responded (mkRawResponse 200 (Some "application/json") Absent
                        "[[[[...]]]]" None (Some TooDeep)).

(** A success whose body is cut short. *)
Definition cut_short : server :=
  fun _ => Responded (mkRawResponse 200 (Some "image/png") Absent "" 
                        (Some (PayloadCut "Response payload is not completed"))
                        None).

(** The session itself raises. *)
Definition closed_session : server :=
  fun _ => Failed (RuntimeError "Session is closed").

Definition forbidden_at_once : server :=
  fun _ => Responded (mkResponse 403 (Some "application/json") None "{}").

End MoreRequest.

(** ** More of http.py: arguments of handle_message_parameters *)

(** The same arguments with other values for [file] and [files]. *)
Definition set_files (a : kwargs.t) (file : arg File) (files : arg (list File))
    : kwargs.t :=
  kwargs.mk (kwargs.content a) (kwargs.username a) (kwargs.avatar_url a)
    file files (kwargs.embed a) (kwargs.embeds a) (kwargs.reply_to a)
    (kwargs.silent a) (kwargs.private a) (kwargs.hide_preview_urls a).

(** The same arguments with other values for [embed] and [embeds]. *)
Definition set_embeds (a : kwargs.t) (embed : arg (option Embed))
    (embeds : arg (list Embed)) : kwargs.t :=
  kwargs.mk (kwargs.content a) (kwargs.username a) (kwargs.avatar_url a)
    (kwargs.file a) (kwargs.files a) embed embeds (kwargs.reply_to a)
    (kwargs.silent a) (kwargs.private a) (kwargs.hide_preview_urls a).

(** The files of a result, none when the argument was left out. *)
Definition files_of (mp : MultipartParameters.t) : list File :=
  match MultipartParameters.files mp with
  | Given fs => fs
  | MISSING => []
  end.

(** Two attachments, a reply, a silent message, an empty user name. *)
Definition two_files : kwargs.t :=
  kwargs.mk (Given (Some "see attached")) (Given "") MISSING MISSING
    (Given [mkFile "aaa" (Some "a.png"); mkFile "bbb" None])
    MISSING MISSING (Given ["m1"]) (Some false) None MISSING.

(** ** More of gateway.py: turns of the heartbeat thread *)

Section MoreHeartbeat.
Import Heartbeater.

(** A turn in which the probe is sent at once, at clock [t]. *)
Definition sent_at (t : time) : turn := mkTurn false [Done] (fun _ => None) t.

(** A turn in which the probe fails. *)
Definition failing_turn : turn :=
  mkTurn false [Failed (OSError 32); Done] (fun _ => None) (inject_Z 9).

(** A turn in which the probe cannot be scheduled: the socket has no
    [ping]. *)
Definition unscheduled_turn : turn :=
  mkTurnOf false (NotScheduled (AttributeError "ping")) (fun _ => None) (inject_Z 9).

(** A turn that finds the stop event set. *)
Definition stop_turn : turn := mkTurn true [Done] (fun _ => None) (inject_Z 5).

Definition fresh_heartbeater : t := __init__ (inject_Z 30) (inject_Z 0) (inject_Z 0).

(** A heartbeater that has been given the identifier of the loop's
    thread. *)
Definition heartbeater_with_thread_id : t :=
  mk (inject_Z 30) (msg fresh_heartbeater) (block_msg fresh_heartbeater)
     (behind_msg fresh_heartbeater) false (inject_Z 0) (inject_Z 0) inf
     [("_main_thread_id", 1%Z)].

(** The last element of a list of turns. *)
Definition last_turn (turns : list turn) : option turn := last turns.

End MoreHeartbeat.

(** ** More of mixins.py: what fill leaves in the cache *)

Section MoreFill.
Import Mentions.

(** The cache [c'] holds every entry the cache [c] holds (possibly with
    a newer value). *)
Definition cache_grows (c c' : Client.t) : Prop :=
  (forall k, is_Some (Client._users c !! k) -> is_Some (Client._users c' !! k)) /\
  (forall k, is_Some (Client._server_members c !! k) ->
             is_Some (Client._server_members c' !! k)) /\
  (forall k, is_Some (Client._server_roles c !! k) ->
             is_Some (Client._server_roles c' !! k)) /\
  (forall k, is_Some (Client._server_channels c !! k) ->
             is_Some (Client._server_channels c' !! k)).

(** A remote end that knows everything [self] refers to in the server
    [sid]: a single fetch returns the entity asked for, of that server,
    and a bulk fetch returns a list that holds every referenced user
    (every referenced role). *)
Definition knows_all (net : network) (sid : string) (self : t) : Prop :=
  (forall n id, exists m, fetch_member net n sid id = Return m /\
                          Member_server_id m = sid /\ Member_id m = id) /\
  (forall n id, exists r, fetch_role net n sid id = Return r /\
                          Role_server_id r = sid /\ Role_id r = id) /\
  (forall n id, exists ch, fetch_channel net n sid id = Return ch /\
                           Channel_server_id ch = sid /\ Channel_id ch = id) /\
  (forall n, exists ms, fetch_members net n sid = Return ms /\
                        forall id, id ∈ _users self -> mkMember sid id ∈ ms) /\
  (forall n, exists rs, fetch_roles net n sid = Return rs /\
                        forall id, id ∈ _roles self -> mkRole sid id ∈ rs).

(** The fetch [x], issued as fetch number [n], raised [e]. *)
Definition raised_by (net : network) (n : nat) (x : call) (e : exn) : Prop :=
  match x with
  | call_fetch_members sid => fetch_members net n sid = Raise e
  | call_fetch_member sid id => fetch_member net n sid id = Raise e
  | call_get_user id => get_user net n id = Raise e
  | call_fetch_roles sid => fetch_roles net n sid = Raise e
  | call_fetch_role sid id => fetch_role net n sid id = Raise e
  | call_fetch_channel sid id => fetch_channel net n sid id = Raise e
  end.

(** An outcome that, when it is an exception, is the exception of the
    last fetch of its trace; with [ignore_errors] set that fetch is a
    bulk fetch or the exception is no [HTTPException]. *)
Definition stops_at_failure (net : network) (ignore_errors : bool)
    (o : outcome) : Prop :=
  match o.1.1 with
  | Return _ => True
  | Raise e =>
      exists tr0 x,
        o.2 = tr0 ++ [x] /\ raised_by net (length tr0) x e /\
        (ignore_errors = true -> is_bulk x = true \/ is_HTTPException e = false)
  end.

(** Every single fetch returns or fails with an [HTTPException]. *)
Definition fails_with_http_only (net : network) : Prop :=
  (forall n sid id e, fetch_member net n sid id = Raise e -> is_HTTPException e = true) /\
  (forall n id e, get_user net n id = Raise e -> is_HTTPException e = true) /\
  (forall n sid id e, fetch_role net n sid id = Raise e -> is_HTTPException e = true) /\
  (forall n sid id e, fetch_channel net n sid id = Raise e -> is_HTTPException e = true).

(** The server "s" as a remote end that knows the users u1 .. u6 and the
    roles r1 .. r6. *)
Definition server_s : network :=
  mkNetwork
    (fun _ sid => Return (map (mkMember sid) ["u1"; "u2"; "u3"; "u4"; "u5"; "u6"; "u7"]))
    (fun _ sid id => Return (mkMember sid id))
    (fun _ id => Return (mkUser id))
    (fun _ sid => Return (map (mkRole sid) ["r1"; "r2"; "r3"; "r4"; "r5"; "r6"]))
    (fun _ sid id => Return (mkRole sid id))
    (fun _ sid id => Return (mkChannel sid id)).

(** A remote end where every single fetch is refused. *)
Definition refusing_everything : network :=
  mkNetwork
    (fun _ sid => Return [])
    (fun _ sid id => Raise forbidden)
    (fun _ id => Raise forbidden)
    (fun _ sid => Return [])
    (fun _ sid id => Raise forbidden)
    (fun _ sid id => Raise forbidden).

Definition six_users_two_channels : Mentions.t :=
  Mentions.mk (Some "s") ["u1"; "u2"; "u3"; "u4"; "u5"; "u6"] ["c1"; "c2"] ["r1"]
              false false.

(** A direct message that refers to two users. *)
Definition dm_two_users : Mentions.t :=
  Mentions.mk None ["u1"; "u2"] [] [] false false.

(** A direct message that refers to a role. *)
Definition dm_with_role : Mentions.t :=
  Mentions.mk None ["u1"] [] ["r1"] false false.

End MoreFill.

Section MoreFillInputs.
Import Mentions.

Definition one_of_each : Mentions.t :=
  Mentions.mk (Some "s") ["u1"] ["c1"] ["r1"] false false.

(** A cache that holds the member, the role and the channel
    [one_of_each] refers to. *)
Definition warm_cache : Client.t :=
  Client.add_to_server_channel_cache
    (Client.add_to_role_cache
       (Client.add_to_member_cache Client.default (mkMember "s" "u1"))
       (mkRole "s" "r1"))
    (mkChannel "s" "c1").

End MoreFillInputs.

(** * Properties *)

(** ** HTTPClientBase.request *)

Section Request.
Import HTTPClientBase.

Lemma n_attempts_app tr1 tr2 :
  n_attempts (tr1 ++ tr2) = n_attempts tr1 + n_attempts tr2.
Proof. unfold n_attempts. by rewrite List.filter_app, length_app. Qed.

Lemma unconditional_retry_inv s :
  unconditional_retry s = true ->
  (s = 500 \/ s = 502 \/ s = 504 \/ s = 524)%Z.
Proof.
  unfold unconditional_retry; simpl.
  rewrite !orb_true_iff, !Z.eqb_eq. intuition discriminate.
Qed.

(** What lines 217-220 return is the value they bind when nothing
    fails. *)
Lemma read_body_data r d : read_body r = Return d -> d = read_data r.
Proof.
  unfold read_body, read_data, json_or_text.
  destruct (is_media _), (read_failure r), (content_type r) as [ct|];
    try destruct (String.eqb ct "application/json");
    try destruct (json_failure r); congruence.
Qed.

(** The loop body on a response with status 500 or more whose body is
    read: retry for the four statuses of line 242, the server-error type
    otherwise. *)
Lemma attempts_5xx srv tries todo last tr r :
  srv tries = Responded r ->
  (500 <= status r)%Z ->
  read_body r = Return (read_data r) ->
  attempts srv (tries :: todo) last tr =
    if unconditional_retry (status r)
    then attempts srv todo (Some (r, read_data r))
           ((tr ++ [EvRequest tries]) ++ [EvSleep (backoff tries)])
    else (Raise (HTTPException PlatformServerError r (read_data r)),
          tr ++ [EvRequest tries]).
Proof.
  intros Hsrv Hs Hb. simpl. rewrite Hsrv, Hb.
  replace (status r <? 300)%Z with false by (symmetry; apply Z.ltb_ge; lia).
  rewrite andb_false_r.
  replace (status r =? 429)%Z with false by (symmetry; apply Z.eqb_neq; lia).
  destruct (unconditional_retry (status r)); [done|].
  replace (status r =? 403)%Z with false by (symmetry; apply Z.eqb_neq; lia).
  replace (status r =? 404)%Z with false by (symmetry; apply Z.eqb_neq; lia).
  replace (500 <=? status r)%Z with true by (symmetry; apply Z.leb_le; lia).
  done.
Qed.

(** No turn of the loop issues more than one request. *)
Lemma attempts_bound srv todo : forall last tr,
  n_attempts (snd (attempts srv todo last tr)) <= n_attempts tr + length todo.
Proof.
  induction todo as [|tries todo IH]; intros last tr; simpl; [lia|].
  assert (Hone : n_attempts (tr ++ [EvRequest tries]) = n_attempts tr + 1)
    by (rewrite n_attempts_app; reflexivity).
  assert (Hsl : forall d, n_attempts ((tr ++ [EvRequest tries]) ++ [EvSleep d])
                          = n_attempts tr + 1)
    by (intros d; rewrite n_attempts_app, Hone; simpl; unfold n_attempts; simpl; lia).
  destruct (srv tries) as [r|e].
  - destruct (read_body r) as [d|e]; [|simpl; lia].
    destruct (rate_limit_delay r tries) as [w|e];
      repeat match goal with
             | |- context [if ?b then _ else _] => destruct b
             end; simpl; try lia;
      (etransitivity; [apply IH|]); rewrite Hsl; lia.
  - destruct e; simpl; try lia.
    destruct ((tries <? 4)%nat && connection_reset errno); simpl; try lia.
    etransitivity; [apply IH|]. rewrite Hsl; lia.
Qed.

(** A 503 is outside the set of line 242: the attempt that receives it
    raises the server-error type, whatever the attempts before it were
    going to be followed by. *)
Lemma request_503_first srv r :
  srv 0 = Responded r -> status r = 503%Z ->
  read_body r = Return (read_data r) ->
  request srv = (Raise (HTTPException PlatformServerError r (read_data r)),
                 [EvRequest 0]).
Proof.
  intros H0 Hs Hb. unfold request. simpl seq.
  rewrite (attempts_5xx _ _ _ _ _ _ H0) by (lia || done). by rewrite Hs.
Qed.

End Request.

Section RequestClaims.
Import HTTPClientBase.

(** C1, as stated, fails: with 503 on attempts 1 and 2 and 201 on
    attempt 3 the call does not succeed.  503 is not among the statuses
    retried, so the first attempt raises [PlatformServerError] and no
    second attempt is made. *)
Lemma request_503_503_201_raises :
  (exists r0 r1 r2,
      unavailable_twice_then_created 0 = Responded r0 /\ status r0 = 503%Z /\
      unavailable_twice_then_created 1 = Responded r1 /\ status r1 = 503%Z /\
      unavailable_twice_then_created 2 = Responded r2 /\ status r2 = 201%Z) /\
  ~ (exists d, fst (request unavailable_twice_then_created) = Return d) /\
  request unavailable_twice_then_created =
    (Raise (HTTPException PlatformServerError
              (mkResponse 503 (Some "text/plain") None "unavailable")
              (Text "unavailable")),
     [EvRequest 0]).
Proof.
  split; [|split].
  - do 3 eexists. repeat split; reflexivity.
  - intros [d Hd]. vm_compute in Hd. discriminate.
  - reflexivity.
Qed.

(** C1, amended: when attempts 1 and 2 are answered with one of the
    statuses 500, 502, 504, 524 and attempt 3 with 201, and the body of
    each of the three responses is received and decoded without error
    (the body is read before the status is looked at, line 217), the
    call returns the decoded body of the 201 response after exactly
    three attempts, and the time slept is at least the sum of the first
    two backoff delays. *)
Theorem request_retried_twice_then_created srv r0 r1 r2 :
  srv 0 = Responded r0 -> unconditional_retry (status r0) = true ->
  srv 1 = Responded r1 -> unconditional_retry (status r1) = true ->
  srv 2 = Responded r2 -> status r2 = 201%Z ->
  read_body r0 = Return (read_data r0) ->
  read_body r1 = Return (read_data r1) ->
  read_body r2 = Return (read_data r2) ->
  fst (request srv) = Return (read_data r2) /\
  n_attempts (snd (request srv)) = 3 /\
  Qle (Qplus (backoff 0) (backoff 1)) (slept (snd (request srv))).
Proof.
  intros H0 U0 H1 U1 H2 S2 B0 B1 B2.
  assert (S0 : (500 <= status r0)%Z)
    by (destruct (unconditional_retry_inv _ U0) as [?|[?|[?|?]]]; lia).
  assert (S1 : (500 <= status r1)%Z)
    by (destruct (unconditional_retry_inv _ U1) as [?|[?|[?|?]]]; lia).
  unfold request. simpl seq.
  rewrite (attempts_5xx _ _ _ _ _ _ H0 S0 B0), U0.
  rewrite (attempts_5xx _ _ _ _ _ _ H1 S1 B1), U1.
  simpl. rewrite H2, B2, S2. simpl.
  repeat split. vm_compute. discriminate.
Qed.

Lemma request_retried_twice_then_created_witness :
  fst (request failing_twice_then_created) = Return (Json "{}") /\
  n_attempts (snd (request failing_twice_then_created)) = 3 /\
  Qle (Qplus (backoff 0) (backoff 1))
      (slept (snd (request failing_twice_then_created))).
Proof.
  exact (request_retried_twice_then_created failing_twice_then_created
           (mkResponse 500 None None "") (mkResponse 502 None None "")
           (mkResponse 201 (Some "application/json") None "{}")
           eq_refl eq_refl eq_refl eq_refl eq_refl eq_refl
           eq_refl eq_refl eq_refl).
Defined.

(** C5, as stated, fails: the body of a response is decoded before its
    status is looked at (line 220 before line 224), and [json.loads] is
    not guarded.  Five attempts, each answered with status 500, the
    fifth with an [application/json] body that is no JSON document: the
    call raises the decoding error, not [PlatformServerError]. *)
Lemma request_five_5xx_undecodable_body :
  (forall i, i < 5 ->
     exists r, server_errors_last_undecodable i = Responded r /\ (500 <= status r)%Z) /\
  n_attempts (snd (request server_errors_last_undecodable)) = 5 /\
  request server_errors_last_undecodable =
    (Raise (ValueError "Expecting value: line 1 column 1 (char 0)"),
     [EvRequest 0; EvSleep (backoff 0); EvRequest 1; EvSleep (backoff 1);
      EvRequest 2; EvSleep (backoff 2); EvRequest 3; EvSleep (backoff 3);
      EvRequest 4]) /\
  ~ (exists r d, fst (request server_errors_last_undecodable)
                 = Raise (HTTPException PlatformServerError r d)).
Proof.
  split; [|split; [|split]].
  - intros [|[|[|[|[|i]]]]] Hi; try lia; eexists; (split; [reflexivity|simpl; lia]).
  - reflexivity.
  - reflexivity.
  - intros (r & d & H). vm_compute in H. discriminate.
Qed.

(** C5, amended: no execution of [request] makes more than five
    attempts; and when five attempts are made, every one is answered
    with a status of 500 or more and the body of every answer is
    received and decoded without error, the call raises
    [PlatformServerError] carrying the fifth response. *)
Theorem request_five_attempts_5xx srv :
  n_attempts (snd (request srv)) <= 5 /\
  ((forall i, i < 5 ->
      exists r, srv i = Responded r /\ (500 <= status r)%Z /\
                read_body r = Return (read_data r)) ->
   n_attempts (snd (request srv)) = 5 ->
   exists r, srv 4 = Responded r /\
     fst (request srv) = Raise (HTTPException PlatformServerError r (read_data r))).
Proof.
  split.
  - unfold request. etransitivity; [apply attempts_bound|]. simpl. lia.
  - intros H.
    destruct (H 0) as (r0 & H0 & S0 & B0); [lia|].
    destruct (H 1) as (r1 & H1 & S1 & B1); [lia|].
    destruct (H 2) as (r2 & H2 & S2 & B2); [lia|].
    destruct (H 3) as (r3 & H3 & S3 & B3); [lia|].
    destruct (H 4) as (r4 & H4 & S4 & B4); [lia|].
    unfold request. simpl seq.
    rewrite (attempts_5xx _ _ _ _ _ _ H0 S0 B0).
    destruct (unconditional_retry (status r0)); [|simpl; discriminate].
    rewrite (attempts_5xx _ _ _ _ _ _ H1 S1 B1).
    destruct (unconditional_retry (status r1)); [|simpl; discriminate].
    rewrite (attempts_5xx _ _ _ _ _ _ H2 S2 B2).
    destruct (unconditional_retry (status r2)); [|simpl; discriminate].
    rewrite (attempts_5xx _ _ _ _ _ _ H3 S3 B3).
    destruct (unconditional_retry (status r3)); [|simpl; discriminate].
    rewrite (attempts_5xx _ _ _ _ _ _ H4 S4 B4).
    intros _. exists r4. split; [done|].
    destruct (unconditional_retry (status r4)); simpl; [|done].
    replace (500 <=? status r4)%Z with true by (symmetry; apply Z.leb_le; lia).
    done.
Qed.

Lemma request_five_attempts_5xx_witness :
  exists r, always_500 4 = Responded r /\
    fst (request always_500) = Raise (HTTPException PlatformServerError r (read_data r)).
Proof.
  apply (proj2 (request_five_attempts_5xx always_500)).
  - intros i _. exists (mkResponse 500 None None "").
    split; [reflexivity|]. split; [simpl; lia|reflexivity].
  - reflexivity.
Defined.

End RequestClaims.

(** ** handle_message_parameters *)

Section MessageParameters.

Lemma is_not_MISSING_true {A} (x : arg A) : is_not_MISSING x = true <-> x <> MISSING.
Proof. destruct x; simpl; split; congruence. Qed.

Lemma is_not_MISSING_false {A} (x : arg A) : is_not_MISSING x = false <-> x = MISSING.
Proof. destruct x; simpl; split; congruence. Qed.

(** C10, as stated, fails: eleven embeds do not always give
    [ValueError].  When [file] and [files] are both supplied as well, the
    check of line 74 comes first and the call raises [TypeError]. *)
Lemma eleven_embeds_mixed_files_is_TypeError :
  too_many_embeds mixed_files_eleven_embeds /\
  handle_message_parameters mixed_files_eleven_embeds
    = Raise (TypeError "Cannot mix file and files keyword arguments.") /\
  ~ (exists m, handle_message_parameters mixed_files_eleven_embeds
               = Raise (ValueError m)).
Proof.
  split; [|split].
  - exists eleven_embeds. split; [reflexivity|]. simpl. lia.
  - reflexivity.
  - intros [m Hm]. vm_compute in Hm. discriminate.
Qed.

(** C10, amended: [TypeError] whenever [file] and [files] are both
    supplied, and whenever [embed] and [embeds] are both supplied;
    [ValueError] whenever [embeds] has more than ten elements and neither
    of these two mixes is present; a [MultipartParameters] value for
    every input with none of the three conditions. *)
Theorem handle_message_parameters_checks (a : kwargs.t) :
  (mixes_files a -> exists m, handle_message_parameters a = Raise (TypeError m)) /\
  (mixes_embeds a -> exists m, handle_message_parameters a = Raise (TypeError m)) /\
  (too_many_embeds a -> ~ mixes_files a -> ~ mixes_embeds a ->
     exists m, handle_message_parameters a = Raise (ValueError m)) /\
  (~ mixes_files a -> ~ mixes_embeds a -> ~ too_many_embeds a ->
     exists mp, handle_message_parameters a = Return mp).
Proof.
  unfold mixes_files, mixes_embeds, too_many_embeds, handle_message_parameters.
  destruct a as [content username avatar_url file files embed embeds
                   reply_to silent private hide]; simpl.
  repeat split.
  - intros [Hfs Hf]. destruct files; [done|]. destruct file; [done|].
    simpl. eauto.
  - intros [Hes He]. destruct embeds; [done|]. destruct embed; [done|].
    simpl. destruct (is_not_MISSING files && is_not_MISSING file); eauto.
  - intros (es & -> & Hlen) Hf He.
    assert (embed = MISSING) as ->
      by (destruct embed; [done|]; exfalso; apply He; split; congruence).
    assert (is_not_MISSING files && is_not_MISSING file = false) as ->.
    { destruct files, file; simpl; try done. exfalso; apply Hf; split; congruence. }
    simpl. replace (10 <? length es)%nat with true
      by (symmetry; apply Nat.ltb_lt; lia).
    destruct file; eauto.
  - intros Hf He Hn.
    assert (is_not_MISSING files && is_not_MISSING file = false) as ->.
    { destruct files, file; simpl; try done. exfalso; apply Hf; split; congruence. }
    assert (is_not_MISSING embeds && is_not_MISSING embed = false) as ->.
    { destruct embeds, embed; simpl; try done. exfalso; apply He; split; congruence. }
    assert (match embeds with
            | Given es => (10 <? length es)%nat
            | MISSING => false
            end = false) as ->.
    { destruct embeds as [|es]; [done|]. apply Nat.ltb_ge.
      destruct (le_lt_dec (length es) 10); [done|].
      exfalso; apply Hn; eauto. }
    match goal with |- context [if ?b then _ else _] => destruct b end; eauto.
Qed.

Lemma handle_message_parameters_checks_witness :
  (exists m, handle_message_parameters only_eleven_embeds = Raise (ValueError m)) /\
  (exists mp, handle_message_parameters one_file_two_embeds = Return mp).
Proof.
  split.
  - apply (handle_message_parameters_checks only_eleven_embeds).
    + exists eleven_embeds. split; [reflexivity|simpl; lia].
    + intros [H _]. apply H. reflexivity.
    + intros [_ H]. apply H. reflexivity.
  - apply (handle_message_parameters_checks one_file_two_embeds).
    + intros [H _]. apply H. reflexivity.
    + intros [_ H]. apply H. reflexivity.
    + intros (es & Hes & Hlen). injection Hes as <-. simpl in Hlen. lia.
Defined.

End MessageParameters.

(** ** The message cache *)

Section MessageCache.
Import Client.

Lemma dict_set_absent {V} (d : odict V) k v :
  dict_get d k = None -> dict_set d k v = d ++ [(k, v)].
Proof.
  induction d as [|[k' v'] d IH]; simpl; [done|].
  destruct (String.eqb k' k); [done|]. intros H. by rewrite IH.
Qed.

Lemma dict_set_length {V} (d : odict V) k v :
  length (dict_set d k v) <= S (length d).
Proof.
  induction d as [|[k' v'] d IH]; simpl; [lia|].
  destruct (String.eqb k' k); simpl; lia.
Qed.

Lemma evict_oldest_bound cap d :
  length d <= S cap -> length (evict_oldest (Some cap) d) <= cap.
Proof.
  intros H. unfold evict_oldest.
  destruct (cap <? length d)%nat eqn:E.
  - destruct d; simpl in *; lia.
  - apply Nat.ltb_ge in E. lia.
Qed.

(** One insertion keeps the cache within its capacity. *)
Lemma create_message_bound c cap m :
  max_messages c = Some cap ->
  length (_messages c) <= cap ->
  max_messages (create_message c m) = Some cap /\
  length (_messages (create_message c m)) <= cap.
Proof.
  intros Hcap Hlen. unfold create_message; simpl. split; [done|].
  rewrite Hcap. apply evict_oldest_bound.
  etransitivity; [apply dict_set_length|]. lia.
Qed.

(** So does any sequence of insertions. *)
Lemma message_cache_bound ms : forall c cap,
  max_messages c = Some cap ->
  length (_messages c) <= cap ->
  length (_messages (foldl create_message c ms)) <= cap.
Proof.
  induction ms as [|m ms IH]; intros c cap Hcap Hlen; simpl; [done|].
  destruct (create_message_bound c cap m Hcap Hlen) as [H1 H2].
  by apply IH.
Qed.

(** From its creation on, the cache of a client stays within the
    capacity it was configured with. *)
Lemma message_cache_bound_from_init cap ms :
  length (_messages (foldl create_message (__init__ (Some cap)) ms)) <= cap.
Proof. apply message_cache_bound; simpl; [done|lia]. Qed.

(** A lookup is a function of the cache alone: reading an entry does not
    move it. *)
Lemma _get_message_after_insert c m :
  max_messages c = None \/ (exists cap, max_messages c = Some cap /\
                                        length (_messages c) < cap) ->
  _get_message (create_message c m) (Message_id m) = Some m.
Proof.
  assert (Hget : forall (d : odict Message) k v, dict_get (dict_set d k v) k = Some v).
  { induction d as [|[k' v'] d IH]; intros k v; simpl.
    - by rewrite String.eqb_refl.
    - destruct (String.eqb k' k) eqn:E; simpl; [by rewrite String.eqb_refl|].
      by rewrite E. }
  unfold _get_message, create_message; simpl.
  intros [->|(cap & -> & Hlt)]; simpl; [apply Hget|].
  pose proof (dict_set_length (_messages c) (Message_id m) m).
  replace (cap <? length (dict_set (_messages c) (Message_id m) m))%nat
    with false by (symmetry; apply Nat.ltb_ge; lia).
  apply Hget.
Qed.

(** C9: a cache configured with capacity [cap] (1000 by default) that
    holds [cap] messages, on insertion of a message it does not hold,
    loses exactly the entry inserted first and keeps the others in their
    order, the new message last; and whatever is inserted afterwards, the
    cache never holds more than [cap] entries. *)
Theorem message_cache_evicts_first_inserted c cap k0 m0 rest m :
  max_messages c = Some cap ->
  _messages c = (k0, m0) :: rest ->
  length (_messages c) = cap ->
  _get_message c (Message_id m) = None ->
  _messages (create_message c m) = rest ++ [(Message_id m, m)] /\
  forall ms,
    length (_messages (foldl create_message c (m :: ms))) <= cap.
Proof.
  intros Hcap Hd Hlen Hnew. split.
  - unfold create_message, _get_message in *; simpl.
    rewrite dict_set_absent by done. rewrite Hcap. unfold evict_oldest.
    rewrite length_app. simpl.
    replace (cap <? length (_messages c) + 1)%nat with true
      by (symmetry; apply Nat.ltb_lt; lia).
    by rewrite Hd.
  - intros ms. apply message_cache_bound; [done|lia].
Qed.

Lemma message_cache_evicts_first_inserted_witness :
  max_messages full_client = Some 1000 /\
  length (_messages full_client) = 1000 /\
  _get_message full_client "0" = Some (numbered_message 0) /\
  _messages (create_message full_client (numbered_message 1000))
    = tail (_messages full_client) ++ [("1000", numbered_message 1000)].
Proof.
  split; [vm_compute; reflexivity|].
  split; [vm_compute; reflexivity|].
  split; [vm_compute; reflexivity|].
  apply (message_cache_evicts_first_inserted full_client 1000
           "0" (numbered_message 0) (tail (_messages full_client))
           (numbered_message 1000)); vm_compute; reflexivity.
Defined.

End MessageCache.

(** ** gateway.py: WebSocket.connect *)

Section Connect.
Import WebSocket.


End Connect.

(** ** gateway.py: Heartbeater *)

Section Heartbeat.
Import Heartbeater.

(** [run] assigns [latency] nowhere. *)
Lemma loop_latency turns : forall self log,
  latency (loop self turns log).1.1 = latency self.
Proof.
  induction turns as [|tn turns IH]; intros self log; simpl; [done|].
  destruct (_stop_ev self || stop_requested tn); [done|].
  destruct (probe tn) as [e|ps]; [done|].
  destruct (wait_result _ _ _ _ _) as [[| |] log']; simpl; [|done|done].
  by rewrite IH.
Qed.

(** An instance without [_main_thread_id]: the wait for the probe ends
    at the first answer of [f.result]; a timeout leaves its handler with
    [AttributeError], before anything is logged. *)
Lemma wait_result_first self frames p ps total log :
  dict_get (other_attributes self) "_main_thread_id" = None ->
  wait_result self frames (p :: ps) total log =
    (match p with
     | Done => Sent
     | Timeout | Failed TimeoutError => Caught (AttributeError "_main_thread_id")
     | Failed e => Caught e
     end, log).
Proof.
  intros H. destruct p as [| |[]]; simpl; try done;
    unfold stall_message, _main_thread_id; by rewrite H.
Qed.

(** Such a thread never logs a stall warning, whatever the environment
    does. *)
Lemma loop_never_warns turns : forall self log,
  dict_get (other_attributes self) "_main_thread_id" = None ->
  warnings (loop self turns log).1.2 = warnings log.
Proof.
  assert (Hdbg : forall log m, warnings (log ++ [log_debug m]) = warnings log).
  { intros log m. unfold warnings. rewrite List.filter_app. simpl.
    by rewrite app_nil_r. }
  induction turns as [|tn turns IH]; intros self log Hattr; simpl; [done|].
  destruct (_stop_ev self || stop_requested tn); [done|].
  destruct (probe tn) as [e|[|p ps]]; [apply Hdbg|simpl; apply Hdbg|].
  rewrite wait_result_first by done.
  destruct p as [| |[]]; simpl; try apply Hdbg.
  rewrite IH by done. apply Hdbg.
Qed.

(** With the attribute in place the handler would log and keep waiting:
    the loss of the warning is the loss of the attribute. *)
Lemma wait_result_with_thread_id self frames tid ps total log :
  dict_get (other_attributes self) "_main_thread_id" = Some tid ->
  frames tid = None ->
  wait_result self frames (Timeout :: ps) total log
  = wait_result self frames ps (total + 10)
      (log ++ [log_warning (block_msg self) (inject_Z (total + 10))]).
Proof.
  intros H Hf. simpl. unfold stall_message, _main_thread_id. by rewrite H, Hf.
Qed.

(** C2 on the code: a Running monitor whose probe is not acknowledged
    within the first ten seconds.  The timeout handler reads
    [self._main_thread_id], which no code sets; the [AttributeError]
    reaches [except Exception: self.stop()].  The monitor is Stopped, and
    no stall warning was logged. *)
Theorem run_stops_on_first_timeout interval now1 now2 frames ps now' turns :
  let self := __init__ interval now1 now2 in
  run self (mkTurn false (Timeout :: ps) frames now' :: turns)
  = (stop self,
     [log_debug "Starting heartbeat thread."; log_debug "Sending heartbeat."],
     Stopped).
Proof. reflexivity. Qed.

(** C7: before any acknowledgment the latency reads as infinite, on a
    socket without heartbeater, on a fresh heartbeater, on a socket with
    one, and however long the heartbeater has run; after a probe sent at
    [t0] and acknowledged at [t1] it is [t1 - t0]. *)
Theorem latency_infinite_until_pong :
  WebSocket.latency WebSocket.__init__ = inf /\
  (forall interval now1 now2 code,
      latency (__init__ interval now1 now2) = inf /\
      WebSocket.latency (WebSocket.mk (Some (__init__ interval now1 now2)) code) = inf) /\
  (forall interval now1 now2 turns code,
      let self := (run (__init__ interval now1 now2) turns).1.1 in
      latency self = inf /\
      WebSocket.latency (WebSocket.mk (Some self) code) = inf) /\
  (forall self t1,
      latency (record_pong self t1).1 = finite (Qminus t1 (_last_ping self))) /\
  (forall interval now1 now2 frames ps t0 t1 code,
      let probed :=
        (run (__init__ interval now1 now2) [mkTurn false (Done :: ps) frames t0]).1.1 in
      let acked := (record_pong probed t1).1 in
      _last_ping probed = t0 /\
      latency acked = finite (Qminus t1 t0) /\
      WebSocket.latency (WebSocket.mk (Some acked) code) = finite (Qminus t1 t0)).
Proof.
  split; [reflexivity|].
  split; [by intros|].
  split.
  { intros interval now1 now2 turns code. unfold run, WebSocket.latency.
    simpl. by rewrite loop_latency. }
  split; [by intros|].
  by intros.
Qed.

End Heartbeat.

(** ** mixins.py: Mentions.fill *)

Section FillTraces.
Import Mentions.

Lemma n_bulk_app k a b : n_bulk k (a ++ b) = n_bulk k a + n_bulk k b.
Proof. unfold n_bulk. by rewrite List.filter_app, length_app. Qed.

Lemma n_individual_app k a b :
  n_individual k (a ++ b) = n_individual k a + n_individual k b.
Proof. unfold n_individual. by rewrite List.filter_app, length_app. Qed.

(** Fetches of another kind do not count. *)
Lemma n_bulk_other k new :
  Forall (fun x => kind_eqb (call_kind x) k = false) new -> n_bulk k new = 0.
Proof.
  induction 1 as [|x new Hx _ IH]; [done|].
  unfold n_bulk in *. simpl. by rewrite Hx.
Qed.

Lemma n_individual_other k new :
  Forall (fun x => kind_eqb (call_kind x) k = false) new -> n_individual k new = 0.
Proof.
  induction 1 as [|x new Hx _ IH]; [done|].
  unfold n_individual in *. simpl. by rewrite Hx.
Qed.

(** Individual fetches of the kind count one each, and are not bulk
    fetches. *)
Lemma n_individual_all k new :
  Forall (fun x => call_kind x = k /\ is_bulk x = false) new ->
  n_individual k new = length new /\ n_bulk k new = 0.
Proof.
  induction 1 as [|x new [Hk Hb] _ [IH1 IH2]]; [done|].
  unfold n_individual, n_bulk in *. simpl. rewrite Hk, Hb.
  replace (kind_eqb k k) with true by (by destruct k). simpl.
  by rewrite IH1, IH2.
Qed.

Lemma calls_of_app k a b : calls_of k (a ++ b) = calls_of k a ++ calls_of k b.
Proof. unfold calls_of. by rewrite List.filter_app. Qed.

Lemma calls_of_other k new :
  Forall (fun x => kind_eqb (call_kind x) k = false) new -> calls_of k new = [].
Proof.
  induction 1 as [|x new Hx _ IH]; [done|].
  unfold calls_of in *. simpl. by rewrite Hx.
Qed.

Lemma calls_of_same k new :
  Forall (fun x => call_kind x = k) new -> calls_of k new = new.
Proof.
  induction 1 as [|x new Hx _ IH]; [done|].
  unfold calls_of in *. simpl. rewrite Hx, IH. by destruct k.
Qed.

(** No fetch asks for the channels of a server in bulk. *)
Lemma n_bulk_channel tr : n_bulk KChannel tr = 0.
Proof.
  unfold n_bulk. induction tr as [|x tr IH]; [done|].
  simpl. by destruct x.
Qed.

(** The channel loop leaves the role cache alone. *)
Lemma fill_each_channel_roles net sid ic ie refs : forall c tr,
  Client._server_roles (fill_each_channel net sid ic ie refs c tr).1.2
  = Client._server_roles c.
Proof.
  induction refs as [|id refs IH]; intros c tr; simpl; [done|].
  destruct (ic || _); [|apply IH].
  destruct (guarded ie _) as [[channel|]|e]; [|apply IH|done].
  by rewrite IH.
Qed.

Lemma extends_nil P tr r c : extends P tr (r, c, tr).
Proof. exists []. by rewrite app_nil_r. Qed.

Lemma extends_one (P : call -> Prop) tr r c x : P x -> extends P tr (r, c, tr ++ [x]).
Proof. intros Hx. exists [x]. split; [done|]. by constructor. Qed.

Lemma extends_cons (P : call -> Prop) tr x o :
  P x -> extends P (tr ++ [x]) o -> extends P tr o.
Proof.
  intros Hx (new & E & F). exists (x :: new). rewrite E, <- app_assoc.
  split; [done|]. by constructor.
Qed.

Lemma extends_weaken (P Q : call -> Prop) tr o :
  (forall x, P x -> Q x) -> extends P tr o -> extends Q tr o.
Proof.
  intros HPQ (new & E & F). exists new. split; [done|].
  eapply Forall_impl; eauto.
Qed.

Lemma fill_each_user_extends net server ic ie refs : forall c tr,
  extends (fun x => call_kind x = KUser /\ is_bulk x = false) tr
          (fill_each_user net server ic ie refs c tr).
Proof.
  induction refs as [|id refs IH]; intros c tr; simpl; [apply extends_nil|].
  destruct (ic || _); [|apply IH].
  destruct server as [sid|].
  - destruct (guarded ie _) as [[user|]|e].
    + eapply extends_cons; [|apply IH]. done.
    + eapply extends_cons; [|apply IH]. done.
    + by apply extends_one.
  - destruct (guarded ie _) as [[user|]|e].
    + eapply extends_cons; [|apply IH]. done.
    + eapply extends_cons; [|apply IH]. done.
    + by apply extends_one.
Qed.

Lemma fill_each_role_extends net sid ic ie refs : forall c tr,
  extends (fun x => call_kind x = KRole /\ is_bulk x = false) tr
          (fill_each_role net sid ic ie refs c tr).
Proof.
  induction refs as [|id refs IH]; intros c tr; simpl; [apply extends_nil|].
  destruct (ic || _); [|apply IH].
  destruct (guarded ie _) as [[role|]|e].
  - eapply extends_cons; [|apply IH]. done.
  - eapply extends_cons; [|apply IH]. done.
  - by apply extends_one.
Qed.

Lemma fill_each_channel_extends net sid ic ie refs : forall c tr,
  extends (fun x => call_kind x = KChannel /\ is_bulk x = false) tr
          (fill_each_channel net sid ic ie refs c tr).
Proof.
  induction refs as [|id refs IH]; intros c tr; simpl; [apply extends_nil|].
  destruct (ic || _); [|apply IH].
  destruct (guarded ie _) as [[channel|]|e].
  - eapply extends_cons; [|apply IH]. done.
  - eapply extends_cons; [|apply IH]. done.
  - by apply extends_one.
Qed.

Lemma fill_users_extends net self ic ie c tr :
  extends (fun x => call_kind x = KUser) tr (fill_users net self ic ie c tr).
Proof.
  unfold fill_users. destruct (_server self) as [sid|].
  - destruct (bulk_path _ _ _ _).
    + destruct (fetch_members _ _ _); by apply extends_one.
    + eapply extends_weaken; [|apply fill_each_user_extends]. by intros x [? _].
  - eapply extends_weaken; [|apply fill_each_user_extends]. by intros x [? _].
Qed.

Lemma fill_roles_extends net self ic ie c tr :
  extends (fun x => call_kind x = KRole) tr (fill_roles net self ic ie c tr).
Proof.
  unfold fill_roles. destruct (_server self) as [sid|].
  - destruct (bulk_path _ _ _ _).
    + destruct (fetch_roles _ _ _); by apply extends_one.
    + eapply extends_weaken; [|apply fill_each_role_extends]. by intros x [? _].
  - destruct (_roles self); apply extends_nil.
Qed.

(** The channel stage issues individual channel fetches only. *)
Lemma fill_channels_extends net self ic ie c tr :
  extends (fun x => call_kind x = KChannel /\ is_bulk x = false) tr
          (fill_channels net self ic ie c tr).
Proof.
  unfold fill_channels. destruct (_server self) as [sid|].
  - apply fill_each_channel_extends.
  - apply extends_nil.
Qed.

(** The user fetches of [fill] are those of its first stage. *)
Lemma fill_user_calls net self ic ie c :
  n_bulk KUser (fill net self ic ie c).2
    = n_bulk KUser (fill_users net self ic ie c []).2 /\
  n_individual KUser (fill net self ic ie c).2
    = n_individual KUser (fill_users net self ic ie c []).2.
Proof.
  unfold fill.
  destruct (fill_users net self ic ie c []) as [[[[]|e] c1] tr1]; [|done].
  destruct (fill_roles_extends net self ic ie c1 tr1) as (nr & Er & Fr).
  destruct (fill_roles net self ic ie c1 tr1) as [[[[]|e] c2] tr2];
    simpl in Er; subst tr2.
  - destruct (fill_channels_extends net self ic ie c2 (tr1 ++ nr)) as (nc & Ec & Fc).
    rewrite Ec. simpl.
    rewrite !n_bulk_app, !n_individual_app.
    rewrite (n_bulk_other KUser nr), (n_individual_other KUser nr),
      (n_bulk_other KUser nc), (n_individual_other KUser nc); [lia|..];
      eapply Forall_impl; eauto; simpl.
    all: try (intros x [-> _]; done). all: intros x ->; done.
  - simpl. rewrite !n_bulk_app, !n_individual_app.
    rewrite (n_bulk_other KUser nr), (n_individual_other KUser nr); [lia|..];
      eapply Forall_impl; eauto; simpl; intros x ->; done.
Qed.

End FillTraces.

Section FillIndividually.
Import Mentions.

Lemma cached_user_add_member c server m id :
  Member_id m <> id ->
  cached_user (Client.add_to_member_cache c m) server id = cached_user c server id.
Proof.
  intros Hne. unfold cached_user, Client._get_server_member, Client._get_user. simpl.
  destruct server as [sid|]; [|done].
  rewrite lookup_insert_ne; [done|]. intros [= _ ?]. done.
Qed.

Lemma cached_user_add_user c server u id :
  User_id u <> id ->
  cached_user (Client.add_to_user_cache c u) server id = cached_user c server id.
Proof.
  intros Hne. unfold cached_user, Client._get_server_member, Client._get_user. simpl.
  rewrite lookup_insert_ne by done. done.
Qed.

Lemma _get_server_role_add c r sid id :
  Role_id r <> id ->
  Client._get_server_role (Client.add_to_role_cache c r) sid id
  = Client._get_server_role c sid id.
Proof.
  intros Hne. unfold Client._get_server_role. simpl.
  rewrite lookup_insert_ne; [done|]. intros [= _ ?]. done.
Qed.

Lemma _get_server_channel_add c ch sid id :
  Channel_id ch <> id ->
  Client._get_server_channel_or_thread (Client.add_to_server_channel_cache c ch) sid id
  = Client._get_server_channel_or_thread c sid id.
Proof.
  intros Hne. unfold Client._get_server_channel_or_thread. simpl.
  rewrite lookup_insert_ne; [done|]. intros [= _ ?]. done.
Qed.

(** A step of a loop over distinct references leaves the test on the
    references still to come as it was. *)
Lemma filter_rest (f g : string -> bool) id refs :
  id ∉ refs ->
  (forall id', id' <> id -> f id' = g id') ->
  List.filter f refs = List.filter g refs.
Proof.
  intros Hnot Hfg. apply List.filter_ext_in. intros id' Hin.
  apply Hfg. intros ->. apply Hnot. by apply list_elem_of_In.
Qed.

Lemma guarded_settles {A} ie (ident : A -> string) id (r : result A) :
  settles ie ident id r ->
  (exists a, r = Return a /\ ident a = id /\ guarded ie r = Return (Some a)) \/
  guarded ie r = Return None.
Proof.
  destruct r as [a|e]; simpl.
  - intros <-. left. eauto.
  - intros ->. by right.
Qed.

Variable net : network.
Variables ic ie : bool.

(** Lines 147-168 over distinct references whose fetches settle: one
    individual fetch for each reference the entry cache misses, in
    order, and the loop runs to its end. *)
Lemma fill_each_user_settled server refs :
  NoDup refs -> user_fetches_settle net ie server refs -> forall c tr,
  exists c',
    fill_each_user net server ic ie refs c tr
    = (Return tt, c',
       tr ++ map (user_call server) (List.filter (missing_user c server ic) refs)).
Proof.
  induction refs as [|id refs IH]; intros Hnd Hset c tr.
  { exists c. simpl. by rewrite app_nil_r. }
  apply NoDup_cons in Hnd as [Hnot Hnd].
  assert (Hset' : user_fetches_settle net ie server refs).
  { unfold user_fetches_settle in *.
    destruct server; intros n id' Hin; apply Hset; by right. }
  simpl.
  change (ic || negb (bool_decide (is_Some (cached_user c server id))))
    with (missing_user c server ic id).
  destruct (missing_user c server ic id); [|by apply IH].
  destruct server as [sid|]; simpl.
  - destruct (guarded_settles ie Member_id id _
                (Hset (length tr) id ltac:(left)))
      as [(m & _ & Hid & ->)| ->].
    + destruct (IH Hnd Hset' (Client.add_to_member_cache c m)
                   (tr ++ [call_fetch_member sid id])) as [c' ->].
      exists c'. rewrite <- app_assoc. simpl.
      rewrite (filter_rest _ (missing_user c (Some sid) ic) id refs Hnot); [done|].
      intros id' Hne. unfold missing_user.
      rewrite cached_user_add_member; [done|congruence].
    + destruct (IH Hnd Hset' c (tr ++ [call_fetch_member sid id])) as [c' ->].
      exists c'. by rewrite <- app_assoc.
  - destruct (guarded_settles ie User_id id _
                (Hset (length tr) id ltac:(left)))
      as [(u & _ & Hid & ->)| ->].
    + destruct (IH Hnd Hset' (Client.add_to_user_cache c u)
                   (tr ++ [call_get_user id])) as [c' ->].
      exists c'. rewrite <- app_assoc. simpl.
      rewrite (filter_rest _ (missing_user c None ic) id refs Hnot); [done|].
      intros id' Hne. unfold missing_user.
      rewrite cached_user_add_user; [done|congruence].
    + destruct (IH Hnd Hset' c (tr ++ [call_get_user id])) as [c' ->].
      exists c'. by rewrite <- app_assoc.
Qed.

(** Lines 187-196, likewise. *)
Lemma fill_each_role_settled sid refs :
  NoDup refs -> role_fetches_settle net ie sid refs -> forall c tr,
  exists c',
    fill_each_role net sid ic ie refs c tr
    = (Return tt, c',
       tr ++ map (call_fetch_role sid) (List.filter (missing_role c sid ic) refs)).
Proof.
  induction refs as [|id refs IH]; intros Hnd Hset c tr.
  { exists c. simpl. by rewrite app_nil_r. }
  apply NoDup_cons in Hnd as [Hnot Hnd].
  assert (Hset' : role_fetches_settle net ie sid refs)
    by (intros n id' Hin; apply Hset; by right).
  simpl.
  change (ic || negb (bool_decide (is_Some (Client._get_server_role c sid id))))
    with (missing_role c sid ic id).
  destruct (missing_role c sid ic id); [|by apply IH].
  destruct (guarded_settles ie Role_id id _ (Hset (length tr) id ltac:(left)))
    as [(r & _ & Hid & ->)| ->].
  - destruct (IH Hnd Hset' (Client.add_to_role_cache c r)
                 (tr ++ [call_fetch_role sid id])) as [c' ->].
    exists c'. rewrite <- app_assoc. simpl.
    rewrite (filter_rest _ (missing_role c sid ic) id refs Hnot); [done|].
    intros id' Hne. unfold missing_role.
    rewrite _get_server_role_add; [done|congruence].
  - destruct (IH Hnd Hset' c (tr ++ [call_fetch_role sid id])) as [c' ->].
    exists c'. by rewrite <- app_assoc.
Qed.

(** Lines 198-211, likewise. *)
Lemma fill_each_channel_settled sid refs :
  NoDup refs -> channel_fetches_settle net ie sid refs -> forall c tr,
  exists c',
    fill_each_channel net sid ic ie refs c tr
    = (Return tt, c',
       tr ++ map (call_fetch_channel sid)
                 (List.filter (missing_channel c sid ic) refs)).
Proof.
  induction refs as [|id refs IH]; intros Hnd Hset c tr.
  { exists c. simpl. by rewrite app_nil_r. }
  apply NoDup_cons in Hnd as [Hnot Hnd].
  assert (Hset' : channel_fetches_settle net ie sid refs)
    by (intros n id' Hin; apply Hset; by right).
  simpl.
  change (ic || negb (bool_decide
                        (is_Some (Client._get_server_channel_or_thread c sid id))))
    with (missing_channel c sid ic id).
  destruct (missing_channel c sid ic id); [|by apply IH].
  destruct (guarded_settles ie Channel_id id _ (Hset (length tr) id ltac:(left)))
    as [(ch & _ & Hid & ->)| ->].
  - destruct (IH Hnd Hset' (Client.add_to_server_channel_cache c ch)
                 (tr ++ [call_fetch_channel sid id])) as [c' ->].
    exists c'. rewrite <- app_assoc. simpl.
    rewrite (filter_rest _ (missing_channel c sid ic) id refs Hnot); [done|].
    intros id' Hne. unfold missing_channel.
    rewrite _get_server_channel_add; [done|congruence].
  - destruct (IH Hnd Hset' c (tr ++ [call_fetch_channel sid id])) as [c' ->].
    exists c'. by rewrite <- app_assoc.
Qed.

Hypothesis Hnet : individual_fetches_settle net ie.

(** The same when every individual fetch settles. *)
Lemma fill_each_user_fetches server refs :
  NoDup refs -> forall c tr,
  exists c',
    fill_each_user net server ic ie refs c tr
    = (Return tt, c',
       tr ++ map (user_call server) (List.filter (missing_user c server ic) refs)).
Proof.
  intros Hnd. apply fill_each_user_settled; [done|].
  destruct Hnet as (Hm & Hu & _ & _).
  unfold user_fetches_settle. destruct server; intros n id _; [apply Hm|apply Hu].
Qed.

Lemma fill_each_role_fetches sid refs :
  NoDup refs -> forall c tr,
  exists c',
    fill_each_role net sid ic ie refs c tr
    = (Return tt, c',
       tr ++ map (call_fetch_role sid) (List.filter (missing_role c sid ic) refs)).
Proof.
  intros Hnd. apply fill_each_role_settled; [done|].
  destruct Hnet as (_ & _ & Hr & _). intros n id _. apply Hr.
Qed.

Lemma fill_each_channel_fetches sid refs :
  NoDup refs -> forall c tr,
  exists c',
    fill_each_channel net sid ic ie refs c tr
    = (Return tt, c',
       tr ++ map (call_fetch_channel sid)
                 (List.filter (missing_channel c sid ic) refs)).
Proof.
  intros Hnd. apply fill_each_channel_settled; [done|].
  destruct Hnet as (_ & _ & _ & Hc). intros n id _. apply Hc.
Qed.

End FillIndividually.

Section FillClaims.
Import Mentions.

Lemma omap_none {A B} (f : A -> option B) (l : list A) :
  (forall a, a ∈ l -> f a = None) -> omap f l = [].
Proof.
  induction l as [|a l IH]; intros H; simpl; [done|].
  rewrite (H a) by left. apply IH. intros b Hb. apply H. by right.
Qed.

Lemma filter_all {A} (f : A -> bool) (l : list A) :
  (forall a, a ∈ l -> f a = true) -> List.filter f l = l.
Proof.
  induction l as [|a l IH]; intros H; simpl; [done|].
  rewrite (H a) by left. f_equal. apply IH. intros b Hb. apply H. by right.
Qed.

(** With fewer than five references the bulk path is not taken. *)
Lemma bulk_path_few server total cached ic :
  total < 5 -> bulk_path server total cached ic = false.
Proof.
  intros H. unfold bulk_path.
  replace (5 <=? total - cached)%nat with false by (symmetry; apply Nat.leb_gt; lia).
  replace (5 <=? total)%nat with false by (symmetry; apply Nat.leb_gt; lia).
  by rewrite andb_false_r.
Qed.

(** A bulk fetch is outside [try]: its failure leaves [fill], whatever
    [ignore_errors] says. *)
Lemma fill_bulk_failure_propagates net self ic ie c sid e :
  _server self = Some sid ->
  bulk_path (Some sid) (length (_users self)) (length (users self c)) ic = true ->
  fetch_members net 0 sid = Raise e ->
  fill net self ic ie c = (Raise e, c, [call_fetch_members sid]).
Proof.
  intros Hs Hb He. unfold fill, fill_users. rewrite Hs, Hb. simpl. by rewrite He.
Qed.

(** On the individual paths the flag decides. *)
Lemma guarded_ignore_errors {A} (e : exn) :
  is_HTTPException e = true ->
  @guarded A true (Raise e) = Return None /\ @guarded A false (Raise e) = Raise e.
Proof. intros H. unfold guarded. rewrite H. done. Qed.

(** C4 on the code: [ignore_errors] is set, five users are referenced
    and none is cached, and the server refuses the member list.  The
    failure is not swallowed: [fill] raises it, and nothing else is
    fetched. *)
Theorem fill_ignore_errors_bulk_failure_raises :
  is_HTTPException forbidden = true /\
  fill refusing_member_list five_users false true Client.default
  = (Raise forbidden, Client.default, [call_fetch_members "s"]).
Proof. split; reflexivity. Qed.

(** C6, as stated, fails: three distinct uncached users, the first
    individual fetch fails and [ignore_errors] is unset.  [fill] stops
    there: one individual fetch, not three. *)
Lemma three_uncached_users_one_fetch :
  length (_users three_users) = 3 /\
  NoDup (_users three_users) /\
  (forall id, id ∈ _users three_users ->
              cached_user Client.default (_server three_users) id = None) /\
  fill refusing_members three_users false false Client.default
  = (Raise forbidden, Client.default, [call_fetch_member "s" "u1"]) /\
  n_individual KUser
    (fill refusing_members three_users false false Client.default).2 = 1.
Proof.
  split; [reflexivity|]. split; [|split; [|split; reflexivity]].
  - apply (bool_decide_unpack _). vm_compute. exact I.
  - intros id _. reflexivity.
Qed.

(** C6, amended: with a server attached and six distinct uncached users
    referenced, [fill] issues exactly one fetch of the member list and no
    fetch of a single user; with three distinct uncached users it issues
    exactly three individual fetches, provided every individual fetch of
    one of the three users returns the user asked for or fails with an
    [HTTPException] while [ignore_errors] is set.  Nothing is asked of
    the fetches of roles and channels. *)
Theorem fill_users_bulk_or_individually net self ic ie c :
  (forall sid,
      _server self = Some sid ->
      length (_users self) = 6 -> NoDup (_users self) ->
      (forall id, id ∈ _users self -> cached_user c (_server self) id = None) ->
      n_bulk KUser (fill net self ic ie c).2 = 1 /\
      n_individual KUser (fill net self ic ie c).2 = 0) /\
  (length (_users self) = 3 -> NoDup (_users self) ->
   (forall id, id ∈ _users self -> cached_user c (_server self) id = None) ->
   user_fetches_settle net ie (_server self) (_users self) ->
   n_individual KUser (fill net self ic ie c).2 = 3 /\
   n_bulk KUser (fill net self ic ie c).2 = 0).
Proof.
  destruct (fill_user_calls net self ic ie c) as [-> ->]. split.
  - intros sid Hs Hlen _ Hunc. unfold fill_users. rewrite Hs.
    unfold users. rewrite omap_none by done. rewrite Hlen. simpl.
    destruct (fetch_members net 0 sid); done.
  - intros Hlen Hnd Hunc Hnet.
    assert (Hall : List.filter (missing_user c (_server self) ic) (_users self)
                   = _users self).
    { apply filter_all. intros id Hid. unfold missing_user.
      rewrite (Hunc id Hid). simpl. apply orb_true_r. }
    assert (Htr : (fill_users net self ic ie c []).2
                  = map (user_call (_server self)) (_users self)).
    { unfold fill_users.
      destruct (fill_each_user_settled net ic ie (_server self)
                  (_users self) Hnd Hnet c []) as [c' E].
      rewrite Hall in E.
      destruct (_server self) as [sid|]; [|by rewrite E].
      rewrite bulk_path_few by lia. by rewrite E. }
    rewrite Htr.
    destruct (n_individual_all KUser (map (user_call (_server self)) (_users self)))
      as [-> ->].
    + apply Forall_map, Forall_forall. intros id _.
      by destruct (_server self).
    + by rewrite length_map.
Qed.

Lemma fill_users_bulk_or_individually_witness :
  (n_bulk KUser (fill obliging six_users false false Client.default).2 = 1 /\
   n_individual KUser (fill obliging six_users false false Client.default).2 = 0) /\
  (n_individual KUser (fill users_only three_users false false Client.default).2 = 3 /\
   n_bulk KUser (fill users_only three_users false false Client.default).2 = 0).
Proof.
  split.
  - apply (proj1 (fill_users_bulk_or_individually
                    obliging six_users false false Client.default) "s").
    + reflexivity.
    + reflexivity.
    + apply (bool_decide_unpack _). vm_compute. exact I.
    + intros id _. reflexivity.
  - apply (proj2 (fill_users_bulk_or_individually
                    users_only three_users false false Client.default)).
    + reflexivity.
    + apply (bool_decide_unpack _). vm_compute. exact I.
    + intros id _. reflexivity.
    + intros n id _. reflexivity.
Defined.

(** Once in the role cache, an entry stays through the population from a
    fetched list. *)
Lemma populate_roles_keeps refs fetched : forall c key,
  is_Some (Client._server_roles c !! key) ->
  is_Some (Client._server_roles
             (foldl (fun c role =>
                       if id_in (Role_id role) refs
                       then Client.add_to_role_cache c role else c)
                    c fetched) !! key).
Proof.
  induction fetched as [|r fetched IH]; intros c key H; simpl; [done|].
  apply IH. destruct (id_in (Role_id r) refs); [|done]. simpl.
  apply lookup_insert_is_Some.
  destruct (decide ((Role_server_id r, Role_id r) = key)); [by left|by right].
Qed.

(** Every fetched role that is referenced ends in the cache. *)
Lemma populate_roles_stores refs fetched : forall c role,
  role ∈ fetched -> id_in (Role_id role) refs = true ->
  is_Some (Client._get_server_role
             (foldl (fun c role =>
                       if id_in (Role_id role) refs
                       then Client.add_to_role_cache c role else c)
                    c fetched)
             (Role_server_id role) (Role_id role)).
Proof.
  unfold Client._get_server_role.
  induction fetched as [|r fetched IH]; intros c role Hin Hid; [by inversion Hin|].
  simpl. apply elem_of_cons in Hin as [->|Hin]; [|by apply IH].
  rewrite Hid. apply populate_roles_keeps. simpl.
  rewrite lookup_insert_eq. by eexists.
Qed.

(** C3, as stated, fails for channels: with a server attached and five
    channel references, none of them cached, [fill] issues no bulk fetch
    but five individual ones. *)
Lemma five_uncached_channels_fetched_one_by_one :
  length (_channels five_channels)
    - length (channels five_channels Client.default) = 5 /\
  (fill obliging five_channels false false Client.default).2
  = [call_fetch_channel "s" "c1"; call_fetch_channel "s" "c2";
     call_fetch_channel "s" "c3"; call_fetch_channel "s" "c4";
     call_fetch_channel "s" "c5"] /\
  n_bulk KChannel (fill obliging five_channels false false Client.default).2 = 0 /\
  n_individual KChannel (fill obliging five_channels false false Client.default).2 = 5.
Proof. repeat split; reflexivity. Qed.

(** C3, amended: in a [fill] with a server attached whose user stage
    has returned (leaving the cache [c1] after the fetches [tr1]), role
    references follow the dual-path policy of user references.  When
    five or more of them are uncached, or five or more are referenced
    and [ignore_cache] is set, [fill] issues exactly one fetch of the
    role list and no fetch of a single role, and when that fetch
    succeeds every fetched role that is referenced is in the cache
    [fill] leaves.  Otherwise [fill] issues no fetch of the role list
    and, the role references being distinct and every individual fetch
    of a referenced role returning the role asked for or failing with an
    [HTTPException] while [ignore_errors] is set, it fetches exactly the
    missing role references, one by one and in order.  Channel
    references have no bulk path: [fill] never issues a bulk fetch for
    channels; and once the role stage has returned (leaving the cache
    [c2]), the channel references being distinct and every individual
    fetch of a referenced channel returning the channel asked for or
    failing with an [HTTPException] while [ignore_errors] is set,
    [fill] returns and has fetched exactly the missing channel
    references, one by one and in order. *)
Theorem roles_dual_path_channels_individually net self ic ie c sid c1 tr1 :
  _server self = Some sid ->
  fill_users net self ic ie c [] = (Return tt, c1, tr1) ->
  (bulk_path (Some sid) (length (_roles self)) (length (roles self c1)) ic = true ->
   n_bulk KRole (fill net self ic ie c).2 = 1 /\
   n_individual KRole (fill net self ic ie c).2 = 0 /\
   forall fetched,
     fetch_roles net (length tr1) sid = Return fetched ->
     forall role,
       role ∈ fetched -> id_in (Role_id role) (_roles self) = true ->
       is_Some (Client._get_server_role (fill net self ic ie c).1.2
                  (Role_server_id role) (Role_id role))) /\
  (bulk_path (Some sid) (length (_roles self)) (length (roles self c1)) ic = false ->
   n_bulk KRole (fill net self ic ie c).2 = 0 /\
   (NoDup (_roles self) -> role_fetches_settle net ie sid (_roles self) ->
    calls_of KRole (fill net self ic ie c).2
    = map (call_fetch_role sid)
          (List.filter (missing_role c1 sid ic) (_roles self)))) /\
  n_bulk KChannel (fill net self ic ie c).2 = 0 /\
  (forall c2 tr2,
     fill_roles net self ic ie c1 tr1 = (Return tt, c2, tr2) ->
     NoDup (_channels self) ->
     channel_fetches_settle net ie sid (_channels self) ->
     (fill net self ic ie c).1.1 = Return tt /\
     calls_of KChannel (fill net self ic ie c).2
     = map (call_fetch_channel sid)
           (List.filter (missing_channel c2 sid ic) (_channels self))).
Proof.
  intros Hs Hu.
  destruct (fill_users_extends net self ic ie c []) as (nu & Eu & Fu).
  rewrite Hu in Eu. simpl in Eu. subst tr1.
  assert (Hnu : forall k, k <> KUser ->
            Forall (fun x => kind_eqb (call_kind x) k = false) nu).
  { intros k Hk. eapply Forall_impl; [exact Fu|]. simpl. intros x ->.
    by destruct k. }
  assert (Hch : forall c2 tr2,
            exists nc, (fill_channels net self ic ie c2 tr2).2 = tr2 ++ nc /\
                       Forall (fun x => call_kind x = KChannel /\ is_bulk x = false) nc /\
                       Client._server_roles (fill_channels net self ic ie c2 tr2).1.2
                       = Client._server_roles c2).
  { intros c2 tr2.
    destruct (fill_channels_extends net self ic ie c2 tr2) as (nc & Ec & Fc).
    exists nc. split; [done|]. split; [done|].
    unfold fill_channels. rewrite Hs. apply fill_each_channel_roles. }
  assert (Hnc : forall k nc, k <> KChannel ->
            Forall (fun x => call_kind x = KChannel /\ is_bulk x = false) nc ->
            Forall (fun x => kind_eqb (call_kind x) k = false) nc).
  { intros k nc Hk F. eapply Forall_impl; [exact F|]. simpl. intros x [-> _].
    by destruct k. }
  unfold fill. rewrite Hu.
  split; [|split; [|split]].
  - intros Hb. unfold fill_roles. rewrite Hs, Hb.
    destruct (fetch_roles net (length nu) sid) as [fetched|e] eqn:E.
    + destruct (Hch (foldl (fun c role =>
                              if id_in (Role_id role) (_roles self)
                              then Client.add_to_role_cache c role else c)
                           c1 fetched)
                    (nu ++ [call_fetch_roles sid])) as (nc & Ec & Fc & Er).
      rewrite Ec. rewrite !n_bulk_app, !n_individual_app.
      rewrite (n_bulk_other KRole nu), (n_individual_other KRole nu),
        (n_bulk_other KRole nc), (n_individual_other KRole nc)
        by (apply Hnu || apply Hnc; done).
      split; [done|]. split; [done|].
      intros ? [= <-] role Hin Hid. unfold Client._get_server_role. rewrite Er.
      by apply populate_roles_stores.
    + simpl. rewrite !n_bulk_app, !n_individual_app.
      rewrite (n_bulk_other KRole nu), (n_individual_other KRole nu)
        by (apply Hnu; done).
      split; [done|]. split; [done|]. intros ? [=].
  - intros Hb. unfold fill_roles. rewrite Hs, Hb.
    destruct (fill_each_role_extends net sid ic ie (_roles self) c1 nu)
      as (nr & Er & Fr).
    assert (Hbulk : forall r c2 tr2,
              fill_each_role net sid ic ie (_roles self) c1 nu = (r, c2, tr2) ->
              n_bulk KRole
                (match r with
                 | Return _ => fill_channels net self ic ie c2 tr2
                 | Raise e => (Raise e, c2, tr2)
                 end).2 = 0).
    { intros r c2 tr2 E. rewrite E in Er. simpl in Er. subst tr2.
      destruct (n_individual_all KRole nr Fr) as [_ Hz].
      destruct r as [[]|e]; simpl.
      - destruct (Hch c2 (nu ++ nr)) as (nc & -> & Fc & _).
        rewrite !n_bulk_app, Hz, (n_bulk_other KRole nu), (n_bulk_other KRole nc)
          by (apply Hnu || apply Hnc; done). done.
      - rewrite !n_bulk_app, Hz, (n_bulk_other KRole nu) by (apply Hnu; done).
        done. }
    split.
    + destruct (fill_each_role net sid ic ie (_roles self) c1 nu)
        as [[r c2] tr2] eqn:E.
      specialize (Hbulk r c2 tr2 eq_refl). by destruct r as [[]|e].
    + intros Hnd Hset.
      destruct (fill_each_role_settled net ic ie sid (_roles self) Hnd Hset c1 nu)
        as [c2 ->].
      destruct (Hch c2 (nu ++ map (call_fetch_role sid)
                                  (List.filter (missing_role c1 sid ic) (_roles self))))
        as (nc & -> & Fc & _).
      rewrite !calls_of_app.
      rewrite (calls_of_other KRole nu), (calls_of_other KRole nc)
        by (apply Hnu || apply Hnc; done).
      rewrite app_nil_r. simpl. apply calls_of_same.
      apply Forall_map, Forall_forall. done.
  - apply n_bulk_channel.
  - intros c2 tr2 Hr Hnd Hset. rewrite Hr.
    destruct (fill_roles_extends net self ic ie c1 nu) as (nr & Er & Fr).
    rewrite Hr in Er. simpl in Er. subst tr2.
    unfold fill_channels. rewrite Hs.
    destruct (fill_each_channel_settled net ic ie sid (_channels self) Hnd Hset
                c2 (nu ++ nr)) as [c3 ->].
    split; [done|]. simpl. rewrite !calls_of_app.
    rewrite (calls_of_other KChannel nu) by (apply Hnu; done).
    rewrite (calls_of_other KChannel nr)
      by (eapply Forall_impl; [exact Fr|]; by intros x ->).
    simpl. apply calls_of_same. apply Forall_map, Forall_forall. done.
Qed.

Lemma roles_dual_path_channels_individually_witness :
  (n_bulk KRole (fill listing_roles six_roles false false Client.default).2 = 1 /\
   n_individual KRole (fill listing_roles six_roles false false Client.default).2 = 0 /\
   is_Some (Client._get_server_role
              (fill listing_roles six_roles false false Client.default).1.2
              "s" "r1")) /\
  calls_of KRole (fill obliging two_roles_three_channels false false Client.default).2
    = [call_fetch_role "s" "r1"; call_fetch_role "s" "r2"] /\
  calls_of KChannel
    (fill obliging two_roles_three_channels false false Client.default).2
    = [call_fetch_channel "s" "c1"; call_fetch_channel "s" "c2";
       call_fetch_channel "s" "c3"].
Proof.
  split; [|split].
  - destruct (proj1 (roles_dual_path_channels_individually
                listing_roles six_roles false false Client.default "s"
                Client.default [] eq_refl eq_refl) eq_refl) as (Hb & Hi & Hc).
    split; [exact Hb|]. split; [exact Hi|].
    apply (Hc [mkRole "s" "r1"; mkRole "s" "r7"] eq_refl (mkRole "s" "r1"));
      [by left|reflexivity].
  - apply (proj1 (proj2 (roles_dual_path_channels_individually
             obliging two_roles_three_channels false false Client.default "s"
             Client.default [] eq_refl eq_refl))).
    + reflexivity.
    + apply (bool_decide_unpack _). vm_compute. exact I.
    + intros n id _. reflexivity.
  - apply (proj2 (proj2 (proj2 (roles_dual_path_channels_individually
             obliging two_roles_three_channels false false Client.default "s"
             Client.default [] eq_refl eq_refl)))
             (Client.add_to_role_cache
                (Client.add_to_role_cache Client.default (mkRole "s" "r1"))
                (mkRole "s" "r2"))
             [call_fetch_role "s" "r1"; call_fetch_role "s" "r2"]).
    + reflexivity.
    + apply (bool_decide_unpack _). vm_compute. exact I.
    + intros n id _. reflexivity.
Defined.

End FillClaims.

(** * Further properties *)

(** ** HTTPClientBase.request: retries, waits and outcomes *)

Section RequestLoop.
Import HTTPClientBase.

Variable srv : server.

(** [float] reads every [retry-after] header that is a number. *)
Lemma rate_limit_delay_wait r tries :
  (forall raw, retry_after_header r <> NotANumber raw) ->
  rate_limit_delay r tries = Return (rate_limit_wait r tries).
Proof.
  unfold rate_limit_delay, rate_limit_wait, retry_after.
  destruct (retry_after_header r) as [|q|raw]; [done|done|].
  intros H. by destruct (H raw).
Qed.

(** One turn of the loop on a 429. *)
Lemma attempts_429 tries todo last tr r :
  srv tries = Responded r -> status r = 429%Z ->
  read_body r = Return (read_data r) ->
  (forall raw, retry_after_header r <> NotANumber raw) ->
  attempts srv (tries :: todo) last tr
  = attempts srv todo (Some (r, read_data r))
      ((tr ++ [EvRequest tries]) ++ [EvSleep (rate_limit_wait r tries)]).
Proof.
  intros H S B F. simpl. rewrite H, B, S. simpl.
  by rewrite (rate_limit_delay_wait _ _ F).
Qed.

(** One turn of the loop on a success. *)
Lemma attempts_success tries todo last tr r :
  srv tries = Responded r -> is_success (status r) = true ->
  read_body r = Return (read_data r) ->
  attempts srv (tries :: todo) last tr = (Return (read_data r), tr ++ [EvRequest tries]).
Proof. intros H S B. simpl. rewrite H, B. unfold is_success in S. by rewrite S. Qed.

(** A body that cannot be read ends the call, whatever the status. *)
Lemma attempts_unreadable tries todo last tr r e :
  srv tries = Responded r -> read_body r = Raise e ->
  attempts srv (tries :: todo) last tr = (Raise e, tr ++ [EvRequest tries]).
Proof. intros H B. simpl. by rewrite H, B. Qed.

(** The exceptions reading a response raises are those of aiohttp, of
    the decoder and of [float]: none is an [HTTPException], none is the
    [RuntimeError] of line 262. *)
Lemma read_raises r tries e :
  read_body r = Raise e \/ rate_limit_delay r tries = Raise e ->
  is_HTTPException e = false /\ forall msg, e <> RuntimeError msg.
Proof.
  unfold read_body, json_or_text, rate_limit_delay.
  intros [H|H].
  - destruct (is_media _), (read_failure r) as [[]|], (content_type r) as [ct|];
      try destruct (String.eqb ct "application/json");
      try destruct (json_failure r) as [[]|];
      try discriminate; injection H as <-; done.
  - destruct (retry_after_header r); try discriminate. injection H as <-. done.
Qed.

(** One turn of the loop on a connection reset that is retried. *)
Lemma attempts_reset tries todo last tr errno :
  srv tries = Failed (OSError errno) ->
  (tries <? 4)%nat && connection_reset errno = true ->
  attempts srv (tries :: todo) last tr
  = attempts srv todo last ((tr ++ [EvRequest tries]) ++ [EvSleep (backoff tries)]).
Proof. intros H S. simpl. rewrite H, S. reflexivity. Qed.

Lemma retried_snoc from waits w :
  retried from (waits ++ [w])
  = retried from waits ++ [EvRequest (from + length waits); EvSleep w].
Proof.
  revert from. induction waits as [|w' waits IH]; intros from; simpl.
  - by rewrite Nat.add_0_r.
  - rewrite IH. by rewrite Nat.add_succ_r.
Qed.

End RequestLoop.

Section RequestRetries.
Import HTTPClientBase.

Variable srv : server.

(** A turn that retries: the attempt, the wait, and the loop goes on;
    [response] and [data] are those of this turn when there was a
    response, and stay as they were after a connection reset. *)
Lemma attempts_retry tries todo last tr w :
  retry_wait (srv tries) tries = Some w ->
  attempts srv (tries :: todo) last tr
  = attempts srv todo
      (match srv tries with
       | Responded r => Some (r, read_data r)
       | Failed _ => last
       end)
      ((tr ++ [EvRequest tries]) ++ [EvSleep w]).
Proof.
  unfold retry_wait, is_success. simpl. destruct (srv tries) as [r|e].
  - destruct (read_body r) as [d|e] eqn:B; [|done].
    apply read_body_data in B as ->.
    destruct ((200 <=? status r)%Z && (status r <? 300)%Z); [done|].
    destruct (status r =? 429)%Z;
      [destruct (rate_limit_delay r tries); [by intros [= <-]|done]|].
    destruct (unconditional_retry (status r)); [by intros [= <-]|done].
  - destruct e; try done.
    destruct ((tries <? 4)%nat && connection_reset errno); [by intros [= <-]|done].
Qed.

(** A turn that does not retry ends the call with the attempt as the
    last event. *)
Lemma attempts_terminal tries todo last tr :
  retry_wait (srv tries) tries = None ->
  (attempts srv (tries :: todo) last tr).2 = tr ++ [EvRequest tries].
Proof.
  unfold retry_wait, is_success. simpl. destruct (srv tries) as [r|e].
  - destruct (read_body r) as [d|e]; [|done].
    destruct ((200 <=? status r)%Z && (status r <? 300)%Z); [done|].
    destruct (status r =? 429)%Z; [by destruct (rate_limit_delay r tries)|].
    destruct (unconditional_retry (status r)); [done|].
    intros _. by repeat (match goal with |- context [if ?b then _ else _] => destruct b end).
  - destruct e; try done.
    destruct ((tries <? 4)%nat && connection_reset errno); done.
Qed.

(** [k] retried attempts from attempt [a] on, then a success. *)
Lemma attempts_retried_then_success (ws : nat -> Q) r k : forall a n last tr,
  k < n ->
  (forall i, a <= i < a + k -> retry_wait (srv i) i = Some (ws i)) ->
  srv (a + k) = Responded r -> is_success (status r) = true ->
  read_body r = Return (read_data r) ->
  attempts srv (seq a n) last tr
  = (Return (read_data r),
     tr ++ retried a (map ws (seq a k)) ++ [EvRequest (a + k)]).
Proof.
  induction k as [|k IH]; intros a n last tr Hn Hws Hr Hok Hb.
  - destruct n as [|n]; [lia|]. simpl seq. rewrite Nat.add_0_r in *.
    by rewrite (attempts_success srv _ _ _ _ r).
  - destruct n as [|n]; [lia|]. simpl seq.
    rewrite (attempts_retry _ _ _ _ (ws a)) by (apply Hws; lia).
    rewrite (IH (S a) n); [| lia | intros i Hi; apply Hws; lia
                           | by rewrite Nat.add_succ_comm | done | done].
    rewrite Nat.add_succ_comm. simpl. by rewrite <- !app_assoc.
Qed.

(** The shape of every trace: attempts numbered from [a], each but the
    last followed by a wait; when all [n] turns retried, the last wait
    ends the trace. *)
Lemma attempts_shape n : forall a last tr,
  exists waits,
    ((attempts srv (seq a n) last tr).2
       = tr ++ retried a waits ++ [EvRequest (a + length waits)]
     /\ length waits < n) \/
    ((attempts srv (seq a n) last tr).2 = tr ++ retried a waits
     /\ length waits = n).
Proof.
  induction n as [|n IH]; intros a last tr.
  { exists []. right. simpl. by rewrite app_nil_r. }
  simpl seq. destruct (retry_wait (srv a) a) as [w|] eqn:E.
  - rewrite (attempts_retry _ _ _ _ w E).
    destruct (IH (S a) (match srv a with
                        | Responded r => Some (r, read_data r)
                        | Failed _ => last
                        end) ((tr ++ [EvRequest a]) ++ [EvSleep w]))
      as [waits [[-> Hl]|[-> Hl]]]; exists (w :: waits); [left|right]; simpl.
    + rewrite <- !app_assoc. simpl. rewrite Nat.add_succ_r. split; [done|lia].
    + rewrite <- !app_assoc. simpl. split; [done|lia].
  - exists []. left. rewrite attempts_terminal by done.
    simpl. rewrite Nat.add_0_r. split; [done|lia].
Qed.

End RequestRetries.

Section RequestOutcomes.
Import HTTPClientBase.

Variable srv : server.

Lemma error_class_retried s :
  (s = 429)%Z \/ unconditional_retry s = true ->
  (if (500 <=? s)%Z then PlatformServerError else HTTPException_) = error_class s.
Proof.
  intros [-> | H]; [done|].
  destruct (unconditional_retry_inv _ H) as [-> | [-> | [-> | ->]]]; done.
Qed.

(** Every way the loop can end. *)
Lemma attempts_outcome todo : forall last tr,
  retried_response srv last ->
  match (attempts srv todo last tr).1 with
  | Return d =>
      exists i r, srv i = Responded r /\ is_success (status r) = true /\
                  d = read_data r
  | Raise e =>
      (exists i, srv i = Failed e) \/
      (exists i r, srv i = Responded r /\ is_success (status r) = false /\
                   e = HTTPException (error_class (status r)) r (read_data r)) \/
      (exists i r, srv i = Responded r /\
                   (read_body r = Raise e \/ rate_limit_delay r i = Raise e)) \/
      (e = RuntimeError "Unreachable code in HTTP handling" /\ last = None /\
       Forall (fun i => (i <? 4)%nat = true) todo)
  end.
Proof.
  induction todo as [|tries todo IH]; intros last tr Hlast.
  { simpl. destruct last as [[r d]|]; simpl.
    - destruct Hlast as (-> & Hns & [i Hi] & Hre).
      pose proof (error_class_retried _ Hre) as Hc.
      destruct (500 <=? status r)%Z; simpl; right; left;
        exists i, r; by rewrite <- Hc.
    - do 3 right. done. }
  simpl. destruct (srv tries) as [r|e] eqn:E.
  - destruct (read_body r) as [d|e] eqn:B; [|simpl; right; right; left; eauto].
    apply read_body_data in B as ->.
    fold (is_success (status r)). destruct (is_success (status r)) eqn:Hs.
    { simpl. eauto. }
    destruct (status r =? 429)%Z eqn:H429.
    { apply Z.eqb_eq in H429.
      destruct (rate_limit_delay r tries) as [w|e] eqn:F;
        [|simpl; right; right; left; eauto].
      specialize (IH (Some (r, read_data r))
                     ((tr ++ [EvRequest tries]) ++ [EvSleep w])).
      destruct (attempts srv todo _ _).1 as [d|e]; [apply IH; simpl; eauto 10|].
      destruct IH as [?|[?|[?|(_ & Hn & _)]]];
        [simpl; eauto 10|by left|by right; left|by right; right; left|discriminate]. }
    destruct (unconditional_retry (status r)) eqn:Hur.
    { specialize (IH (Some (r, read_data r))
                     ((tr ++ [EvRequest tries]) ++ [EvSleep (backoff tries)])).
      destruct (attempts srv todo _ _).1 as [d|e]; [apply IH; simpl; eauto 10|].
      destruct IH as [?|[?|[?|(_ & Hn & _)]]];
        [simpl; eauto 10|by left|by right; left|by right; right; left|discriminate]. }
    assert (Hcls : forall e, e = HTTPException (error_class (status r)) r (read_data r) ->
              (exists i, srv i = Failed e) \/
              (exists i r0, srv i = Responded r0 /\ is_success (status r0) = false /\
                 e = HTTPException (error_class (status r0)) r0 (read_data r0)) \/
              (exists i r0, srv i = Responded r0 /\
                 (read_body r0 = Raise e \/ rate_limit_delay r0 i = Raise e)) \/
              (e = RuntimeError "Unreachable code in HTTP handling" /\ last = None /\
               Forall (fun i => (i <? 4)%nat = true) (tries :: todo)))
      by (intros e ->; right; left; eauto).
    unfold error_class in Hcls.
    destruct (status r =? 403)%Z; [by apply Hcls|].
    destruct (status r =? 404)%Z; [by apply Hcls|].
    destruct (500 <=? status r)%Z; by apply Hcls.
  - destruct e; try (simpl; left; eauto).
    destruct ((tries <? 4)%nat && connection_reset errno) eqn:Hretry;
      [|simpl; left; eauto].
    specialize (IH last ((tr ++ [EvRequest tries]) ++ [EvSleep (backoff tries)]) Hlast).
    destruct (attempts srv todo _ _).1 as [d|e]; [done|].
    destruct IH as [?|[?|[?|(-> & -> & Hall)]]];
      [by left|by right; left|by right; right; left|].
    do 3 right. repeat split. constructor; [|done].
    by apply andb_true_iff in Hretry as [? _].
Qed.

End RequestOutcomes.

Section RequestMore.
Import HTTPClientBase.

(** X1: retries are absorbed.  When the first [k] attempts (fewer than
    five) are answered by something the loop retries (a reset
    connection, or a response whose body is read without error and
    whose status is 429, with a [retry-after] header that is absent or a
    number, or one of 500, 502, 504, 524) and attempt [k + 1] by a
    success whose body is read without error, the call returns the data
    of that success; its trace is the [k] attempts, each followed by its
    wait (the stated [retry-after] for a 429 that has one,
    [1 + 2 * tries] otherwise), then the last attempt. *)
Theorem request_retried_then_success srv (ws : nat -> Q) r k :
  k < 5 ->
  (forall i, i < k -> retry_wait (srv i) i = Some (ws i)) ->
  srv k = Responded r -> is_success (status r) = true ->
  read_body r = Return (read_data r) ->
  request srv
  = (Return (read_data r), retried 0 (map ws (seq 0 k)) ++ [EvRequest k]).
Proof.
  intros Hk Hws Hr Hok Hb. unfold request.
  rewrite (attempts_retried_then_success srv ws r k 0 5 None []); try done.
  intros i Hi. apply Hws. lia.
Qed.

Lemma request_retried_then_success_witness :
  request bumpy
  = (Return (Bytes "png"),
     [EvRequest 0; EvSleep (backoff 0); EvRequest 1; EvSleep (7 # 2)%Q;
      EvRequest 2; EvSleep (backoff 2); EvRequest 3]).
Proof.
  apply (request_retried_then_success bumpy
           (fun i => match i with 1 => (7 # 2)%Q | _ => backoff i end)
           (mkResponse 200 (Some "image/png") None "png") 3).
  - lia.
  - intros [|[|[|i]]] Hi; try reflexivity. lia.
  - reflexivity.
  - reflexivity.
  - reflexivity.
Defined.



(** X3: transport failures.  A connection reset ([errno] 54 or 10054)
    on each of the five attempts is retried four times, with waits of 1,
    3, 5 and 7, and the fifth reset is raised; any other failure of the
    first attempt is raised at once, with no wait and no second
    attempt. *)
Theorem request_transport_failures srv :
  (forall errs : nat -> Z,
      (forall i, i < 5 -> srv i = Failed (OSError (errs i)) /\
                          connection_reset (errs i) = true) ->
      request srv
      = (Raise (OSError (errs 4)),
         retried 0 (map backoff (seq 0 4)) ++ [EvRequest 4])) /\
  (forall e,
      srv 0 = Failed e ->
      (forall errno, e = OSError errno -> connection_reset errno = false) ->
      request srv = (Raise e, [EvRequest 0])).
Proof.
  split.
  - intros errs H.
    assert (Hw : forall i, i < 4 -> retry_wait (srv i) i = Some (backoff i)).
    { intros i Hi. destruct (H i ltac:(lia)) as [-> Hreset]. simpl. rewrite Hreset.
      by replace (i <? 4)%nat with true by (symmetry; apply Nat.ltb_lt; lia). }
    unfold request. simpl seq.
    rewrite (attempts_retry srv 0 _ _ _ _ (Hw 0 ltac:(lia))).
    rewrite (attempts_retry srv 1 _ _ _ _ (Hw 1 ltac:(lia))).
    rewrite (attempts_retry srv 2 _ _ _ _ (Hw 2 ltac:(lia))).
    rewrite (attempts_retry srv 3 _ _ _ _ (Hw 3 ltac:(lia))).
    destruct (H 4 ltac:(lia)) as [H4 _]. simpl. by rewrite H4.
  - intros e H0 Hne. unfold request. simpl. rewrite H0.
    destruct e; try done. by rewrite (Hne errno eq_refl).
Qed.

Lemma request_transport_failures_witness :
  request always_reset
  = (Raise (OSError 10054),
     [EvRequest 0; EvSleep (backoff 0); EvRequest 1; EvSleep (backoff 1);
      EvRequest 2; EvSleep (backoff 2); EvRequest 3; EvSleep (backoff 3);
      EvRequest 4]) /\
  request closed_session = (Raise (RuntimeError "Session is closed"), [EvRequest 0]).
Proof.
  split.
  - apply (proj1 (request_transport_failures always_reset) (fun _ => 10054%Z)).
    intros i _. split; reflexivity.
  - apply (proj2 (request_transport_failures closed_session)); [reflexivity|].
    intros errno [=].
Defined.

(** X4: the typed errors are sound.  An [HTTPException] that leaves
    [request] (the session raising none itself) carries a response the
    server gave, which was not a success, together with its data; and
    its class follows the status of that response: [Forbidden] for 403,
    [NotFound] for 404, [PlatformServerError] from 500 on, the plain
    class otherwise. *)
Theorem request_error_is_typed srv cls r d :
  (request srv).1 = Raise (HTTPException cls r d) ->
  (forall i c r' d', srv i <> Failed (HTTPException c r' d')) ->
  (exists i, srv i = Responded r) /\
  d = read_data r /\
  is_success (status r) = false /\
  cls = error_class (status r).
Proof.
  intros Hres Hsess.
  pose proof (attempts_outcome srv (seq 0 5) None [] I) as H.
  unfold request in Hres. rewrite Hres in H.
  destruct H as [[i Hi]|[(i & r0 & Hi & Hns & [= -> -> ->])
                        |[(i & r0 & _ & Hread)|([=] & _)]]].
  - by destruct (Hsess i cls r d).
  - eauto.
  - by destruct (read_raises _ _ _ Hread) as [? _].
Qed.

Lemma request_error_is_typed_witness :
  (exists i, forbidden_at_once i
             = Responded (mkResponse 403 (Some "application/json") None "{}")) /\
  Json "{}" = read_data (mkResponse 403 (Some "application/json") None "{}") /\
  is_success 403 = false /\
  Forbidden = error_class 403.
Proof.
  apply (request_error_is_typed forbidden_at_once Forbidden
           (mkResponse 403 (Some "application/json") None "{}") (Json "{}")).
  - reflexivity.
  - intros i c r' d' [=].
Defined.

(** X5: what is returned is the data of a success.  When [request]
    returns, the value is the data read off a response of the server
    whose status is in 200..299. *)
Theorem request_returns_success_data srv d :
  (request srv).1 = Return d ->
  exists i r, srv i = Responded r /\ is_success (status r) = true /\
              d = read_data r.
Proof.
  intros Hres.
  pose proof (attempts_outcome srv (seq 0 5) None [] I) as H.
  unfold request in Hres. by rewrite Hres in H.
Qed.

Lemma request_returns_success_data_witness :
  exists i r, bumpy i = Responded r /\ is_success (status r) = true /\
              Bytes "png" = read_data r.
Proof. apply (request_returns_success_data bumpy (Bytes "png")). reflexivity. Defined.

(** X6: the statement after the loop that is marked unreachable is
    unreachable.  [RuntimeError('Unreachable code in HTTP handling')],
    the exception of line 262, leaves [request] only when the session
    itself raised an exception of that very message: line 262 is never
    executed.  (Another [RuntimeError] can leave the call: the
    [RecursionError] of [json.loads] on a body nested too deep, which
    carries the interpreter's message.) *)
Theorem request_unreachable_is_unreachable srv :
  (forall i, srv i <> Failed (RuntimeError "Unreachable code in HTTP handling")) ->
  (request srv).1 <> Raise (RuntimeError "Unreachable code in HTTP handling").
Proof.
  intros Hsess Hres.
  pose proof (attempts_outcome srv (seq 0 5) None [] I) as H.
  unfold request in Hres. rewrite Hres in H.
  destruct H as [[i Hi]|[(i & r0 & _ & _ & [=])|[(i & r0 & _ & Hread)|(_ & _ & Hall)]]].
  - by destruct (Hsess i).
  - destruct (read_raises _ _ _ Hread) as [_ Hne].
    by destruct (Hne "Unreachable code in HTTP handling").
  - apply Forall_forall with (x := 4) in Hall; [done|].
    simpl. do 4 right. left.
Qed.

Lemma request_unreachable_is_unreachable_witness :
  (request closed_session).1 <> Raise (RuntimeError "Unreachable code in HTTP handling") /\
  (request deeply_nested).1 = Raise RecursionError.
Proof.
  split; [|reflexivity].
  apply (request_unreachable_is_unreachable closed_session).
  intros i [=].
Defined.

(** X28: a body that cannot be read ends the call.  The body of every
    response is received and decoded before its status is looked at, so
    when reading the body of the first response raises (the payload is
    cut short, the connection is lost, the bytes are not UTF-8, an
    [application/json] body is no JSON document), that exception leaves
    [request] after the one attempt, whatever the status: a success is
    not returned and a 429 or a 500 is not retried. *)
Theorem request_unreadable_body srv r e :
  srv 0 = Responded r -> read_body r = Raise e ->
  request srv = (Raise e, [EvRequest 0]) /\
  is_HTTPException e = false.
Proof.
  intros H0 Hb. unfold request. simpl seq.
  rewrite (attempts_unreadable srv 0 _ _ _ r e H0 Hb). split; [done|].
  by destruct (read_raises r 0 e (or_introl Hb)).
Qed.

Lemma request_unreadable_body_witness :
  (request cut_short
   = (Raise (ClientPayloadError "Response payload is not completed"), [EvRequest 0]) /\
   is_HTTPException (ClientPayloadError "Response payload is not completed") = false) /\
  (request deeply_nested = (Raise RecursionError, [EvRequest 0]) /\
   is_HTTPException RecursionError = false).
Proof.
  split.
  - apply (request_unreadable_body cut_short
             (mkRawResponse 200 (Some "image/png") Absent ""
                (Some (PayloadCut "Response payload is not completed")) None));
      reflexivity.
  - apply (request_unreadable_body deeply_nested
             (mkRawResponse 200 (Some "application/json") Absent "[[[[...]]]]"
                None (Some TooDeep)));
      reflexivity.
Defined.

(** X7: attempts are strictly sequential and never back to back.  The
    trace of any call is attempt 0, a wait, attempt 1, a wait, ...: the
    attempts are numbered from 0 without gap, each attempt but the last
    is followed by exactly one wait, there is at least one attempt and at
    most five, and only a call that retried five times ends on a wait. *)
Theorem request_trace_shape srv :
  exists waits,
    ((request srv).2 = retried 0 waits ++ [EvRequest (length waits)]
     /\ length waits < 5) \/
    ((request srv).2 = retried 0 waits /\ length waits = 5).
Proof. apply (attempts_shape srv 5 0 None []). Qed.

End RequestMore.

(** ** The headers of request *)

Section Headers.

Lemma dict_get_set {V} (d : odict V) k v k' :
  dict_get (dict_set d k v) k' = if String.eqb k k' then Some v else dict_get d k'.
Proof.
  induction d as [|[k0 v0] d IH]; simpl; [done|].
  destruct (String.eqb_spec k0 k) as [->|Hne]; simpl; [by destruct (String.eqb k k')|].
  rewrite IH. destruct (String.eqb_spec k0 k') as [->|Hne']; [|done].
  destruct (String.eqb_spec k k') as [->|]; done.
Qed.

(** X8: the credential is kept out of the log.  The headers sent carry
    the user agent, and [Bearer <token>] exactly when a non-empty token
    is set; the headers logged show [Bearer [removed]] in its place and
    agree with the headers sent on every other name. *)
Theorem log_headers_redacts_token user_agent token json :
  let sent := request_headers user_agent token json in
  dict_get sent "User-Agent" = Some user_agent /\
  dict_get sent "Authorization"
  = match token with
    | Some t => if String.eqb t "" then None else Some ("Bearer " +:+ t)
    | None => None
    end /\
  dict_get (log_headers sent) "Authorization"
  = match token with
    | Some t => if String.eqb t "" then None else Some "Bearer [removed]"
    | None => None
    end /\
  forall name, name <> "Authorization" ->
               dict_get (log_headers sent) name = dict_get sent name.
Proof.
  assert (Hother : forall (h : odict string) name, name <> "Authorization" ->
            dict_get (log_headers h) name = dict_get h name).
  { intros h name Hne. unfold log_headers.
    destruct (dict_get h "Authorization"); [|done].
    rewrite dict_get_set.
    destruct (String.eqb_spec "Authorization" name); [by subst|done]. }
  simpl. repeat split; [..|intros; by apply Hother];
    unfold log_headers, request_headers;
    (destruct token as [t|]; [destruct (String.eqb t "")|]);
    destruct json; reflexivity.
Qed.

End Headers.

(** ** handle_message_parameters: what the arguments become *)

Section MessageParametersMore.

(** X9: a single [file] is a list of one.  Passing [file=f] gives the
    result of passing [files=[f]], whatever the other arguments. *)
Theorem file_is_files_of_one a f :
  handle_message_parameters (set_files a (Given f) MISSING)
  = handle_message_parameters (set_files a MISSING (Given [f])).
Proof. reflexivity. Qed.

(** X10: a single [embed] is a list of one, and [embed=None] is the
    empty list.  Passing [embed=e] gives the result of passing
    [embeds=[e]], and [embed=None] that of [embeds=[]], whatever the
    other arguments. *)
Theorem embed_is_embeds_of_one a :
  (forall e,
      handle_message_parameters (set_embeds a (Given (Some e)) MISSING)
      = handle_message_parameters (set_embeds a MISSING (Given [e]))) /\
  handle_message_parameters (set_embeds a (Given None) MISSING)
  = handle_message_parameters (set_embeds a MISSING (Given [])).
Proof.
  split; [intros e|]; unfold handle_message_parameters; simpl;
    destruct (is_not_MISSING (kwargs.files a) && is_not_MISSING (kwargs.file a));
    reflexivity.
Qed.

Lemma file_parts_lookup fs : forall from i f,
  fs !! i = Some f ->
  file_parts from fs !! i
  = Some (FilePart ("files[" +:+ pretty (from + i) +:+ "]") (fp f) (filename f)).
Proof.
  induction fs as [|f0 fs IH]; intros from i f Hi; [done|].
  destruct i as [|i]; simpl in *.
  - injection Hi as ->. by rewrite Nat.add_0_r.
  - rewrite (IH (S from) i f Hi). by rewrite Nat.add_succ_r.
Qed.

Lemma file_parts_length fs : forall from, length (file_parts from fs) = length fs.
Proof. induction fs as [|f fs IH]; intros from; simpl; [done|]. by rewrite IH. Qed.

(** X11: the layout of the result.  Without attachments (none given, or
    an empty list) the payload is returned as such and there is no
    multipart.  With attachments the payload is [None] and has moved into
    the first part, named [payload_json]; the parts after it are the
    attachments in order, part [i + 1] named [files[i]] with the content
    and file name of attachment [i]. *)
Theorem multipart_layout a mp :
  handle_message_parameters a = Return mp ->
  (files_of mp = [] ->
   MultipartParameters.payload mp = Some (build_payload a) /\
   MultipartParameters.multipart mp = []) /\
  (files_of mp <> [] ->
   MultipartParameters.payload mp = None /\
   length (MultipartParameters.multipart mp) = S (length (files_of mp)) /\
   MultipartParameters.multipart mp !! 0
   = Some (PayloadJson "payload_json" (build_payload a)) /\
   forall i f,
     files_of mp !! i = Some f ->
     MultipartParameters.multipart mp !! S i
     = Some (FilePart ("files[" +:+ pretty i +:+ "]") (fp f) (filename f))).
Proof.
  unfold handle_message_parameters, files_of.
  destruct (is_not_MISSING (kwargs.files a) && is_not_MISSING (kwargs.file a)); [done|].
  destruct (is_not_MISSING (kwargs.embeds a) && is_not_MISSING (kwargs.embed a)); [done|].
  destruct (match kwargs.embeds a with
            | Given es => (10 <? length es)%nat
            | MISSING => false
            end); [done|].
  set (files := match kwargs.file a with
                | Given f => Given [f]
                | MISSING => kwargs.files a
                end).
  destruct files as [|[|f fs]]; simpl; intros [= <-]; simpl; split; try done.
  intros _. repeat split.
  - by rewrite file_parts_length.
  - intros [|i] f' Hi; simpl in *.
    + by injection Hi as ->.
    + by rewrite (file_parts_lookup fs 1 i f' Hi).
Qed.

Lemma multipart_layout_witness :
  exists mp,
    handle_message_parameters two_files = Return mp /\
    MultipartParameters.payload mp = None /\
    length (MultipartParameters.multipart mp) = 3 /\
    MultipartParameters.multipart mp !! 2 = Some (FilePart "files[1]" "bbb" None).
Proof.
  eexists. split; [reflexivity|].
  destruct (multipart_layout two_files _ eq_refl) as [_ H].
  destruct H as (Hp & Hl & _ & Hparts); [done|].
  split; [exact Hp|]. split; [exact Hl|].
  exact (Hparts 1 (mkFile "bbb" None) eq_refl).
Defined.

(** The outermost assignment to [key] does not matter to the lookup of
    another key. *)
Ltac skip_layer key :=
  match goal with
  | |- context [dict_set ?P key _] =>
      let p := fresh "p" in
      set (p := P);
      match goal with
      | |- dict_get ?outer ?k = _ =>
          let H := fresh "H" in
          assert (H : dict_get outer k = dict_get p k);
          [ repeat (match goal with
                    | |- context [if ?b then _ else _] => destruct b
                    | |- context [match ?x with _ => _ end] => destruct x
                    end);
            rewrite ?dict_get_set; reflexivity
          | rewrite H; clear H; subst p ]
      end
  end.

(** X12: which arguments reach the payload, and under which name.  An
    argument that was left out leaves no entry.  [content=None] is sent
    as an explicit null.  [silent] and [private] are sent whenever they
    are not [None], [False] included, while an empty [username] or
    [avatar_url] is dropped. *)
Theorem payload_entries a :
  let p := build_payload a in
  dict_get p "content"
  = match kwargs.content a with
    | Given (Some c) => Some (VStr c)
    | Given None => Some VNone
    | MISSING => None
    end /\
  dict_get p "replyMessageIds"
  = match kwargs.reply_to a with
    | Given ids => Some (VStrs ids)
    | MISSING => None
    end /\
  dict_get p "isSilent" = VBool <$> kwargs.silent a /\
  dict_get p "isPrivate" = VBool <$> kwargs.private a /\
  dict_get p "hiddenLinkPreviewUrls"
  = match kwargs.hide_preview_urls a with
    | Given urls => Some (VStrs urls)
    | MISSING => None
    end /\
  dict_get p "username"
  = match kwargs.username a with
    | Given u => if String.eqb u "" then None else Some (VStr u)
    | MISSING => None
    end /\
  dict_get p "avatar_url"
  = match kwargs.avatar_url a with
    | Given u => if String.eqb u "" then None else Some (VStr u)
    | MISSING => None
    end.
Proof.
  destruct a as [content username avatar_url file files embed embeds
                   reply_to silent private hide].
  unfold build_payload, truthy_str; cbn [kwargs.content kwargs.username
    kwargs.avatar_url kwargs.embed kwargs.embeds kwargs.reply_to kwargs.silent
    kwargs.private kwargs.hide_preview_urls].
  repeat apply conj.
  - skip_layer "avatar_url". skip_layer "username".
    skip_layer "hiddenLinkPreviewUrls". skip_layer "isPrivate".
    skip_layer "isSilent". skip_layer "replyMessageIds".
    destruct content as [|[c|]]; [|by rewrite dict_get_set..].
    repeat skip_layer "embeds"; try destruct embeds; done.
  - skip_layer "avatar_url". skip_layer "username".
    skip_layer "hiddenLinkPreviewUrls". skip_layer "isPrivate".
    skip_layer "isSilent".
    destruct reply_to; [|by rewrite dict_get_set].
    skip_layer "content". repeat skip_layer "embeds"; try destruct embeds; done.
  - skip_layer "avatar_url". skip_layer "username".
    skip_layer "hiddenLinkPreviewUrls". skip_layer "isPrivate".
    destruct silent; [by rewrite dict_get_set|].
    skip_layer "replyMessageIds".
    skip_layer "content". repeat skip_layer "embeds"; try destruct embeds; done.
  - skip_layer "avatar_url". skip_layer "username".
    skip_layer "hiddenLinkPreviewUrls".
    destruct private; [by rewrite dict_get_set|].
    skip_layer "isSilent". skip_layer "replyMessageIds".
    skip_layer "content". repeat skip_layer "embeds"; try destruct embeds; done.
  - skip_layer "avatar_url". skip_layer "username".
    destruct hide; [|by rewrite dict_get_set].
    skip_layer "isPrivate". skip_layer "isSilent". skip_layer "replyMessageIds".
    skip_layer "content". repeat skip_layer "embeds"; try destruct embeds; done.
  - skip_layer "avatar_url".
    destruct username as [|u]; [|destruct (String.eqb u ""); simpl;
                                 [|by rewrite dict_get_set]]; simpl.
    all: skip_layer "hiddenLinkPreviewUrls"; skip_layer "isPrivate";
      skip_layer "isSilent"; skip_layer "replyMessageIds";
      skip_layer "content"; repeat skip_layer "embeds"; try destruct embeds; done.
  - destruct avatar_url as [|u]; [|destruct (String.eqb u ""); simpl;
                                   [|by rewrite dict_get_set]]; simpl.
    all: skip_layer "username";
      skip_layer "hiddenLinkPreviewUrls"; skip_layer "isPrivate";
      skip_layer "isSilent"; skip_layer "replyMessageIds";
      skip_layer "content"; repeat skip_layer "embeds"; try destruct embeds; done.
Qed.

End MessageParametersMore.

(** ** gateway.py: connect, stop, probes and pongs *)

Section GatewayMore.
Import Heartbeater.

(** X13: only the handshake error is returned as a value.  Any other
    exception of the upgrade leaves [connect] as an exception, with
    nothing logged and no probe sent. *)
Theorem connect_other_failures_propagate e ping :
  (forall m, e <> WSServerHandshakeError m) ->
  WebSocket.connect (Raise e) ping = (Raise e, []).
Proof. intros H. destruct e as [| |m| | | | | | | |]; try done. by destruct (H m). Qed.

Lemma connect_other_failures_propagate_witness :
  WebSocket.connect (Raise (OSError 111)) (Some (Return tt)) = (Raise (OSError 111), []).
Proof. apply connect_other_failures_propagate. intros m [=]. Defined.

(** X26: [connect] on a class that defines [ping].  A failed upgrade
    handshake is logged and handed back as a value, with no probe sent;
    after a successful handshake exactly one probe is issued, and the
    connection object is returned once that probe has been awaited; if
    the probe itself raises, the exception leaves [connect] and no
    connection is returned. *)
Theorem connect_with_ping :
  (forall m ping,
      WebSocket.connect (Raise (WSServerHandshakeError m)) ping
      = (Return (inr (WSServerHandshakeError m)),
         [WebSocket.EvLog (log_error ("Failed to connect to websocket: " +:+ m))])) /\
  (forall u probed,
      WebSocket.pings (snd (WebSocket.connect (Return u) (Some probed))) = 1) /\
  (forall u v,
      WebSocket.connect (Return u) (Some (Return v))
      = (Return (inl WebSocket.__init__),
         [WebSocket.EvLog (log_info "Connected to websocket."); WebSocket.EvPing])) /\
  (forall u e,
      WebSocket.connect (Return u) (Some (Raise e))
      = (Raise e,
         [WebSocket.EvLog (log_info "Connected to websocket."); WebSocket.EvPing])).
Proof.
  repeat split.
  intros u [v|e]; reflexivity.
Qed.

Lemma loop_stop_prefix pre : forall self log tn rest rest',
  stop_requested tn = true ->
  loop self (pre ++ tn :: rest) log = loop self (pre ++ tn :: rest') log.
Proof.
  induction pre as [|t0 pre IH]; intros self log tn rest rest' Hstop; simpl.
  - by rewrite Hstop, orb_true_r.
  - destruct (_stop_ev self || stop_requested t0); [done|].
    destruct (probe t0) as [e|ps]; [done|].
    destruct (wait_result _ _ _ _ _) as [[| |] log']; [|done|done].
    by apply IH.
Qed.

(** X14: after [stop] no probe is scheduled.  A thread started on a
    stopped heartbeater leaves its loop at the first wait, having sent
    nothing; [stop] is idempotent; and in a running thread, once a wait
    finds the event set, what the environment would have answered
    afterwards makes no difference. *)
Theorem stop_schedules_nothing self tn :
  (forall turns,
      run (stop self) (tn :: turns)
      = (stop self, [log_debug "Starting heartbeat thread."], Stopped)) /\
  stop (stop self) = stop self /\
  (forall pre rest rest',
      stop_requested tn = true ->
      run self (pre ++ tn :: rest) = run self (pre ++ tn :: rest')).
Proof.
  repeat split. intros pre rest rest' H. unfold run. by apply loop_stop_prefix.
Qed.

Lemma stop_schedules_nothing_witness :
  run fresh_heartbeater ([sent_at (inject_Z 1)] ++ stop_turn :: [sent_at (inject_Z 61)])
  = run fresh_heartbeater ([sent_at (inject_Z 1)] ++ stop_turn :: []).
Proof.
  apply (proj2 (proj2 (stop_schedules_nothing fresh_heartbeater stop_turn))).
  reflexivity.
Defined.

(** X15: a probe that fails stops the monitor.  When [f.result] raises
    anything but a [TimeoutError], a running thread sets the stop event
    and leaves its loop; the time of the last probe is not updated and
    nothing is logged beyond the two debug records.  (A [TimeoutError]
    raised by the probe is taken for the timeout of the wait and goes to
    the stall handler.) *)
Theorem probe_failure_stops self tn e ps turns :
  _stop_ev self = false -> stop_requested tn = false ->
  polls tn = Failed e :: ps ->
  e <> TimeoutError ->
  run self (tn :: turns)
  = (stop self,
     [log_debug "Starting heartbeat thread."; log_debug "Sending heartbeat."],
     Stopped).
Proof.
  intros Hs Hr Hp He. unfold run, polls in *. simpl. rewrite Hs, Hr.
  destruct (probe tn) as [e'|ps']; [done|]. subst ps'. simpl.
  by destruct e.
Qed.

Lemma probe_failure_stops_witness :
  run fresh_heartbeater [failing_turn; sent_at (inject_Z 40)]
  = (stop fresh_heartbeater,
     [log_debug "Starting heartbeat thread."; log_debug "Sending heartbeat."],
     Stopped).
Proof.
  apply (probe_failure_stops fresh_heartbeater failing_turn (OSError 32) [Done]);
    [reflexivity|reflexivity|reflexivity|discriminate].
Defined.

(** X27: a probe that cannot be scheduled ends the thread without
    stopping the monitor.  Lines 86-87 stand before the [try]: when
    [self.ws.ping()] or [run_coroutine_threadsafe] raises, the exception
    leaves [run]; [stop] is not called, so the stop event stays unset,
    and the turns that would have followed do not take place. *)
Theorem run_dies_when_not_scheduled self tn e turns :
  _stop_ev self = false -> stop_requested tn = false ->
  probe tn = NotScheduled e ->
  run self (tn :: turns)
  = (self,
     [log_debug "Starting heartbeat thread."; log_debug "Sending heartbeat."],
     Died e) /\
  _stop_ev (run self (tn :: turns)).1.1 = false.
Proof.
  intros Hs Hr Hp. unfold run. simpl. by rewrite Hs, Hr, Hp.
Qed.

Lemma run_dies_when_not_scheduled_witness :
  run fresh_heartbeater [unscheduled_turn; sent_at (inject_Z 40)]
  = (fresh_heartbeater,
     [log_debug "Starting heartbeat thread."; log_debug "Sending heartbeat."],
     Died (AttributeError "ping")) /\
  _stop_ev (run fresh_heartbeater [unscheduled_turn; sent_at (inject_Z 40)]).1.1
  = false.
Proof.
  apply (run_dies_when_not_scheduled fresh_heartbeater unscheduled_turn
           (AttributeError "ping") [sent_at (inject_Z 40)]); reflexivity.
Defined.

Lemma loop_all_sent turns : forall self log,
  _stop_ev self = false ->
  Forall (fun tn => stop_requested tn = false /\ exists ps, polls tn = Done :: ps)
         turns ->
  loop self turns log
  = (match last_turn turns with
     | Some tn => set_last_ping self (now tn)
     | None => self
     end,
     log ++ repeat (log_debug "Sending heartbeat.") (length turns),
     Running).
Proof.
  induction turns as [|tn turns IH]; intros self log Hs Hall; simpl.
  - by rewrite app_nil_r.
  - apply Forall_cons in Hall as [[Hr [ps Hp]] Hall].
    rewrite Hs, Hr. unfold polls in Hp.
    destruct (probe tn) as [e|ps']; [done|]. subst ps'.
    simpl. rewrite IH by done.
    rewrite <- app_assoc. simpl. f_equal. f_equal.
    unfold last_turn. destruct turns as [|tn' turns]; [done|].
    change (last (tn :: tn' :: turns)) with (last (tn' :: turns)).
    destruct (last (tn' :: turns)) eqn:E; [done|].
    by apply last_None in E.
Qed.

(** X16: one probe per interval.  While nothing stops the thread and
    every probe is sent without timeout, the thread is still running
    after any number of turns, has announced exactly one heartbeat per
    turn, and holds as [_last_ping] the clock of the last turn. *)
Theorem run_sends_one_probe_per_turn self turns :
  _stop_ev self = false ->
  Forall (fun tn => stop_requested tn = false /\ exists ps, polls tn = Done :: ps)
         turns ->
  run self turns
  = (match last_turn turns with
     | Some tn => set_last_ping self (now tn)
     | None => self
     end,
     log_debug "Starting heartbeat thread."
       :: repeat (log_debug "Sending heartbeat.") (length turns),
     Running).
Proof. intros Hs Hall. unfold run. by rewrite loop_all_sent. Qed.

Lemma run_sends_one_probe_per_turn_witness :
  run fresh_heartbeater [sent_at (inject_Z 30); sent_at (inject_Z 60)]
  = (set_last_ping fresh_heartbeater (inject_Z 60),
     [log_debug "Starting heartbeat thread."; log_debug "Sending heartbeat.";
      log_debug "Sending heartbeat."],
     Running).
Proof.
  apply (run_sends_one_probe_per_turn fresh_heartbeater
           [sent_at (inject_Z 30); sent_at (inject_Z 60)]); [reflexivity|].
  repeat constructor; by exists [].
Defined.

(** X17: what a pong records.  [record_pong] sets [_last_pong] to the
    clock and the latency to the time since the last probe, leaves the
    probe time and the stop event alone, and logs the lag warning exactly
    when that latency is more than ten seconds (ten seconds sharp logs
    nothing). *)
Theorem record_pong_warns_beyond_ten self t :
  let after := (record_pong self t).1 in
  let log := (record_pong self t).2 in
  _last_pong after = t /\
  _last_ping after = _last_ping self /\
  _stop_ev after = _stop_ev self /\
  (Qlt (inject_Z 10) (Qminus t (_last_ping self)) ->
   log = [log_warning (behind_msg self) (Qminus t (_last_ping self))]) /\
  (Qle (Qminus t (_last_ping self)) (inject_Z 10) -> log = []).
Proof.
  simpl. repeat split.
  - intros H. destruct (Qlt_le_dec _ _) as [_|Hle]; [done|].
    exfalso. by apply (Qlt_not_le _ _ H).
  - intros H. destruct (Qlt_le_dec _ _) as [Hlt|_]; [|done].
    exfalso. by apply (Qlt_not_le _ _ Hlt).
Qed.

Lemma wait_result_stalls self frames m n : forall ps total log,
  stall_message self frames = Return m ->
  wait_result self frames (repeat Timeout n ++ Done :: ps) total log
  = (Sent,
     log ++ map (fun i => log_warning m (inject_Z (total + 10 * Z.of_nat (S i))))
                (seq 0 n)).
Proof.
  induction n as [|n IH]; intros ps total log Hm; simpl.
  - by rewrite app_nil_r.
  - rewrite Hm. rewrite IH by done. rewrite <- app_assoc. simpl.
    f_equal. f_equal. f_equal.
    rewrite <- seq_shift, map_map. apply map_ext. intros i.
    f_equal. f_equal. lia.
Qed.

(** X18: the stall warnings of an instance that has a
    [_main_thread_id].  When the lookup of the loop's frame yields a
    message, [n] timeouts followed by the completion of the probe log [n]
    warnings, with the totals 10, 20, ..., 10 n, and the wait then ends
    with the probe sent. *)
Theorem stall_warnings_count_tens self frames m n ps log :
  stall_message self frames = Return m ->
  wait_result self frames (repeat Timeout n ++ Done :: ps) 0 log
  = (Sent,
     log ++ map (fun i => log_warning m (inject_Z (10 * Z.of_nat (S i)))) (seq 0 n)).
Proof. intros Hm. by rewrite (wait_result_stalls self frames m n). Qed.

Lemma stall_warnings_count_tens_witness :
  wait_result heartbeater_with_thread_id (fun _ => None)
    (repeat Timeout 2 ++ Done :: []) 0 []
  = (Sent,
     [log_warning (block_msg heartbeater_with_thread_id) (inject_Z 10);
      log_warning (block_msg heartbeater_with_thread_id) (inject_Z 20)]).
Proof.
  apply (stall_warnings_count_tens heartbeater_with_thread_id (fun _ => None)
           (block_msg heartbeater_with_thread_id) 2 [] []).
  reflexivity.
Defined.

End GatewayMore.

(** ** Mentions.fill: what it leaves in the cache *)

Section CacheGrows.
Import Mentions.

Lemma cache_grows_refl c : cache_grows c c.
Proof. by repeat split. Qed.

Lemma cache_grows_trans c1 c2 c3 :
  cache_grows c1 c2 -> cache_grows c2 c3 -> cache_grows c1 c3.
Proof.
  intros (A1 & A2 & A3 & A4) (B1 & B2 & B3 & B4). repeat split; eauto.
Qed.

Lemma insert_keeps `{Countable K} {V} (m : gmap K V) k v k' :
  is_Some (m !! k') -> is_Some (<[k := v]> m !! k').
Proof.
  intros Hs. apply lookup_insert_is_Some.
  destruct (decide (k = k')); [by left|by right].
Qed.

Lemma add_to_member_cache_grows c m : cache_grows c (Client.add_to_member_cache c m).
Proof. repeat split; simpl; try done. intros k. apply insert_keeps. Qed.

Lemma add_to_user_cache_grows c u : cache_grows c (Client.add_to_user_cache c u).
Proof. repeat split; simpl; try done. intros k. apply insert_keeps. Qed.

Lemma add_to_role_cache_grows c r : cache_grows c (Client.add_to_role_cache c r).
Proof. repeat split; simpl; try done. intros k. apply insert_keeps. Qed.

Lemma add_to_server_channel_cache_grows c ch :
  cache_grows c (Client.add_to_server_channel_cache c ch).
Proof. repeat split; simpl; try done. intros k. apply insert_keeps. Qed.

(** A user that resolves keeps resolving as the cache grows. *)
Lemma cached_user_grows c c' server id :
  cache_grows c c' ->
  is_Some (cached_user c server id) -> is_Some (cached_user c' server id).
Proof.
  intros (Hu & Hm & _ & _). unfold cached_user, Client._get_user,
    Client._get_server_member.
  destruct server as [sid|].
  - destruct (Client._server_members c !! (sid, id)) eqn:E.
    + intros _. destruct (Hm (sid, id)) as [m' ->]; [by rewrite E|]. done.
    + intros Hs. destruct (Client._server_members c' !! (sid, id)); [done|].
      rewrite fmap_is_Some in *. by apply Hu.
  - rewrite !fmap_is_Some. apply Hu.
Qed.

Lemma id_in_elem x ids : id_in x ids = true <-> x ∈ ids.
Proof.
  unfold id_in. rewrite existsb_exists. split.
  - intros (y & Hy & E). apply String.eqb_eq in E as ->. by apply list_elem_of_In.
  - intros Hx. exists x. split; [by apply list_elem_of_In|apply String.eqb_refl].
Qed.

End CacheGrows.

Section FillResolves.
Import Mentions.

Variable net : network.
Variable sid : string.
Variables ic ie : bool.

Lemma populate_members_grows refs fetched : forall c,
  cache_grows c
    (foldl (fun c member =>
              if id_in (Member_id member) refs
              then Client.add_to_member_cache c member else c) c fetched).
Proof.
  induction fetched as [|m fetched IH]; intros c; simpl; [apply cache_grows_refl|].
  eapply cache_grows_trans; [|apply IH].
  destruct (id_in (Member_id m) refs);
    [apply add_to_member_cache_grows|apply cache_grows_refl].
Qed.

Lemma populate_roles_grows refs fetched : forall c,
  cache_grows c
    (foldl (fun c role =>
              if id_in (Role_id role) refs
              then Client.add_to_role_cache c role else c) c fetched).
Proof.
  induction fetched as [|r fetched IH]; intros c; simpl; [apply cache_grows_refl|].
  eapply cache_grows_trans; [|apply IH].
  destruct (id_in (Role_id r) refs);
    [apply add_to_role_cache_grows|apply cache_grows_refl].
Qed.

Lemma populate_members_stores refs fetched : forall c m,
  m ∈ fetched -> id_in (Member_id m) refs = true ->
  is_Some (Client._server_members
             (foldl (fun c member =>
                       if id_in (Member_id member) refs
                       then Client.add_to_member_cache c member else c) c fetched)
           !! (Member_server_id m, Member_id m)).
Proof.
  induction fetched as [|m0 fetched IH]; intros c m Hin Hid; [by inversion Hin|].
  simpl. apply elem_of_cons in Hin as [->|Hin]; [|by apply IH].
  rewrite Hid.
  destruct (populate_members_grows refs fetched (Client.add_to_member_cache c m0))
    as (_ & Hm & _ & _).
  apply Hm. simpl. rewrite lookup_insert_eq. by eexists.
Qed.

Lemma member_resolves c id :
  is_Some (Client._server_members c !! (sid, id)) ->
  is_Some (cached_user c (Some sid) id).
Proof.
  unfold cached_user, Client._get_server_member. by intros [m ->].
Qed.

(** Lines 147-168 against a remote end that knows every member. *)
Lemma fill_each_user_resolves refs :
  (forall n id, exists m, fetch_member net n sid id = Return m /\
                          Member_server_id m = sid /\ Member_id m = id) ->
  forall c tr,
  exists c' tr',
    fill_each_user net (Some sid) ic ie refs c tr = (Return tt, c', tr') /\
    cache_grows c c' /\
    forall id, id ∈ refs -> is_Some (cached_user c' (Some sid) id).
Proof.
  intros Hknow. induction refs as [|id refs IH]; intros c tr.
  { exists c, tr. split; [done|]. split; [apply cache_grows_refl|].
    by intros id Hid; inversion Hid. }
  cbn [fill_each_user]. destruct (ic || negb (bool_decide (is_Some (cached_user c (Some sid) id)))) eqn:E.
  - destruct (Hknow (length tr) id) as (m & -> & Hs & Hi). simpl.
    destruct (IH (Client.add_to_member_cache c m) (tr ++ [call_fetch_member sid id]))
      as (c' & tr' & -> & Hg & Hres).
    exists c', tr'. split; [done|]. split.
    + eapply cache_grows_trans; [apply add_to_member_cache_grows|done].
    + intros id' [->|Hin]%elem_of_cons; [|by apply Hres].
      apply (cached_user_grows (Client.add_to_member_cache c m) c' (Some sid) id Hg).
      apply (member_resolves (Client.add_to_member_cache c m) id). simpl.
      rewrite Hs, Hi, lookup_insert_eq. by eexists.
  - apply orb_false_iff in E as [_ E]. apply negb_false_iff, bool_decide_eq_true in E.
    destruct (IH c tr) as (c' & tr' & -> & Hg & Hres).
    exists c', tr'. split; [done|]. split; [done|].
    intros id' [->|Hin]%elem_of_cons; [|by apply Hres].
    by apply (cached_user_grows c c' (Some sid) id Hg).
Qed.

(** Lines 187-196 against a remote end that knows every role. *)
Lemma fill_each_role_resolves refs :
  (forall n id, exists r, fetch_role net n sid id = Return r /\
                          Role_server_id r = sid /\ Role_id r = id) ->
  forall c tr,
  exists c' tr',
    fill_each_role net sid ic ie refs c tr = (Return tt, c', tr') /\
    cache_grows c c' /\
    forall id, id ∈ refs -> is_Some (Client._get_server_role c' sid id).
Proof.
  intros Hknow. induction refs as [|id refs IH]; intros c tr.
  { exists c, tr. split; [done|]. split; [apply cache_grows_refl|].
    by intros id Hid; inversion Hid. }
  cbn [fill_each_role].
  destruct (ic || negb (bool_decide (is_Some (Client._get_server_role c sid id)))) eqn:E.
  - destruct (Hknow (length tr) id) as (r & -> & Hs & Hi). simpl.
    destruct (IH (Client.add_to_role_cache c r) (tr ++ [call_fetch_role sid id]))
      as (c' & tr' & -> & Hg & Hres).
    exists c', tr'. split; [done|]. split.
    + eapply cache_grows_trans; [apply add_to_role_cache_grows|done].
    + intros id' [->|Hin]%elem_of_cons; [|by apply Hres].
      destruct Hg as (_ & _ & Hr & _). apply Hr. simpl.
      rewrite Hs, Hi, lookup_insert_eq. by eexists.
  - apply orb_false_iff in E as [_ E]. apply negb_false_iff, bool_decide_eq_true in E.
    destruct (IH c tr) as (c' & tr' & -> & Hg & Hres).
    exists c', tr'. split; [done|]. split; [done|].
    intros id' [->|Hin]%elem_of_cons; [|by apply Hres].
    destruct Hg as (_ & _ & Hr & _). by apply Hr.
Qed.

(** Lines 198-211 against a remote end that knows every channel. *)
Lemma fill_each_channel_resolves refs :
  (forall n id, exists ch, fetch_channel net n sid id = Return ch /\
                           Channel_server_id ch = sid /\ Channel_id ch = id) ->
  forall c tr,
  exists c' tr',
    fill_each_channel net sid ic ie refs c tr = (Return tt, c', tr') /\
    cache_grows c c' /\
    forall id, id ∈ refs -> is_Some (Client._get_server_channel_or_thread c' sid id).
Proof.
  intros Hknow. induction refs as [|id refs IH]; intros c tr.
  { exists c, tr. split; [done|]. split; [apply cache_grows_refl|].
    by intros id Hid; inversion Hid. }
  cbn [fill_each_channel].
  destruct (ic || negb (bool_decide
              (is_Some (Client._get_server_channel_or_thread c sid id)))) eqn:E.
  - destruct (Hknow (length tr) id) as (ch & -> & Hs & Hi). simpl.
    destruct (IH (Client.add_to_server_channel_cache c ch)
                 (tr ++ [call_fetch_channel sid id]))
      as (c' & tr' & -> & Hg & Hres).
    exists c', tr'. split; [done|]. split.
    + eapply cache_grows_trans; [apply add_to_server_channel_cache_grows|done].
    + intros id' [->|Hin]%elem_of_cons; [|by apply Hres].
      destruct Hg as (_ & _ & _ & Hc). apply Hc. simpl.
      rewrite Hs, Hi, lookup_insert_eq. by eexists.
  - apply orb_false_iff in E as [_ E]. apply negb_false_iff, bool_decide_eq_true in E.
    destruct (IH c tr) as (c' & tr' & -> & Hg & Hres).
    exists c', tr'. split; [done|]. split; [done|].
    intros id' [->|Hin]%elem_of_cons; [|by apply Hres].
    destruct Hg as (_ & _ & _ & Hc). by apply Hc.
Qed.

(** The whole of [fill] against a remote end that knows everything the
    mention data refers to. *)
Lemma fill_resolves self c :
  _server self = Some sid -> knows_all net sid self ->
  exists c' tr',
    fill net self ic ie c = (Return tt, c', tr') /\
    cache_grows c c' /\
    (forall id, id ∈ _users self -> is_Some (cached_user c' (Some sid) id)) /\
    (forall id, id ∈ _roles self -> is_Some (Client._get_server_role c' sid id)) /\
    (forall id, id ∈ _channels self ->
                is_Some (Client._get_server_channel_or_thread c' sid id)).
Proof.
  intros Hs (Hm & Hr & Hc & Hms & Hrs).
  assert (Hu : exists c1 tr1,
             fill_users net self ic ie c [] = (Return tt, c1, tr1) /\
             cache_grows c c1 /\
             forall id, id ∈ _users self -> is_Some (cached_user c1 (Some sid) id)).
  { unfold fill_users. rewrite Hs. destruct (bulk_path _ _ _ _).
    - destruct (Hms (length (@nil call))) as (ms & -> & Hall).
      do 2 eexists. split; [done|].
      split; [apply populate_members_grows|].
      intros id Hid. apply member_resolves.
      apply (populate_members_stores (_users self) ms c (mkMember sid id));
        [by apply Hall|by apply id_in_elem].
    - by apply fill_each_user_resolves. }
  destruct Hu as (c1 & tr1 & Eu & Hg1 & Hres1).
  assert (Hro : exists c2 tr2,
             fill_roles net self ic ie c1 tr1 = (Return tt, c2, tr2) /\
             cache_grows c1 c2 /\
             forall id, id ∈ _roles self -> is_Some (Client._get_server_role c2 sid id)).
  { unfold fill_roles. rewrite Hs. destruct (bulk_path _ _ _ _).
    - destruct (Hrs (length tr1)) as (rs & -> & Hall). do 2 eexists. split; [done|].
      split; [apply populate_roles_grows|].
      intros id Hid.
      apply (populate_roles_stores (_roles self) rs c1 (mkRole sid id));
        [by apply Hall|by apply id_in_elem].
    - by apply fill_each_role_resolves. }
  destruct Hro as (c2 & tr2 & Er & Hg2 & Hres2).
  destruct (fill_each_channel_resolves (_channels self) Hc c2 tr2)
    as (c3 & tr3 & Ec & Hg3 & Hres3).
  exists c3, tr3. unfold fill. rewrite Eu, Er. unfold fill_channels. rewrite Hs, Ec.
  split; [done|]. split; [eauto using cache_grows_trans|].
  split; [|split; [|done]].
  - intros id Hid. eapply cached_user_grows; [|by apply Hres1].
    eauto using cache_grows_trans.
  - intros id Hid. destruct Hg3 as (_ & _ & Hr3 & _). apply Hr3. by apply Hres2.
Qed.

(** Lines 147-211 on references the cache holds, the cache not being
    ignored: nothing is fetched. *)
Lemma fill_each_user_cached refs : forall c tr,
  (forall id, id ∈ refs -> is_Some (cached_user c (Some sid) id)) ->
  fill_each_user net (Some sid) false ie refs c tr = (Return tt, c, tr).
Proof.
  induction refs as [|id refs IH]; intros c tr Hall; simpl; [done|].
  rewrite bool_decide_eq_true_2 by (apply Hall; left). simpl.
  apply IH. intros id' Hid. apply Hall. by right.
Qed.

Lemma fill_each_role_cached refs : forall c tr,
  (forall id, id ∈ refs -> is_Some (Client._get_server_role c sid id)) ->
  fill_each_role net sid false ie refs c tr = (Return tt, c, tr).
Proof.
  induction refs as [|id refs IH]; intros c tr Hall; simpl; [done|].
  rewrite bool_decide_eq_true_2 by (apply Hall; left). simpl.
  apply IH. intros id' Hid. apply Hall. by right.
Qed.

Lemma fill_each_channel_cached refs : forall c tr,
  (forall id, id ∈ refs -> is_Some (Client._get_server_channel_or_thread c sid id)) ->
  fill_each_channel net sid false ie refs c tr = (Return tt, c, tr).
Proof.
  induction refs as [|id refs IH]; intros c tr Hall; simpl; [done|].
  rewrite bool_decide_eq_true_2 by (apply Hall; left). simpl.
  apply IH. intros id' Hid. apply Hall. by right.
Qed.

Lemma omap_all_Some {A B} (f : A -> option B) (l : list A) :
  (forall a, a ∈ l -> is_Some (f a)) -> length (omap f l) = length l.
Proof.
  induction l as [|a l IH]; intros H; simpl; [done|].
  destruct (H a) as [b ->]; [left|]. simpl. f_equal. apply IH.
  intros a' Ha'. apply H. by right.
Qed.

Lemma bulk_path_all_cached server n :
  bulk_path server n n false = false.
Proof.
  unfold bulk_path. rewrite Nat.sub_diag. simpl.
  by rewrite andb_false_r, andb_false_r.
Qed.

(** [fill] on mention data the cache holds entirely. *)
Lemma fill_cached self c :
  _server self = Some sid ->
  (forall id, id ∈ _users self -> is_Some (cached_user c (Some sid) id)) ->
  (forall id, id ∈ _roles self -> is_Some (Client._get_server_role c sid id)) ->
  (forall id, id ∈ _channels self ->
              is_Some (Client._get_server_channel_or_thread c sid id)) ->
  fill net self false ie c = (Return tt, c, []).
Proof.
  intros Hs Hu Hr Hc. unfold fill, fill_users, fill_roles, fill_channels.
  rewrite Hs. unfold users, roles. rewrite Hs. cbv beta iota.
  rewrite (omap_all_Some _ (_users self)) by done.
  rewrite bulk_path_all_cached.
  rewrite fill_each_user_cached by done. cbv beta iota.
  rewrite (omap_all_Some _ (_roles self)) by done.
  rewrite bulk_path_all_cached.
  rewrite fill_each_role_cached by done. cbv beta iota.
  by rewrite fill_each_channel_cached.
Qed.

End FillResolves.

Section FillResolvesClaims.
Import Mentions.

(** X19: [fill] resolves every reference.  With a server attached and a
    remote end that knows everything the mention data refers to, [fill]
    returns normally, whatever the flags and the cache it starts from,
    and afterwards the [users], [roles] and [channels] properties yield
    one entity for every reference. *)
Theorem fill_resolves_every_reference net sid ic ie self c :
  _server self = Some sid -> knows_all net sid self ->
  (fill net self ic ie c).1.1 = Return tt /\
  length (users self (fill net self ic ie c).1.2) = length (_users self) /\
  length (roles self (fill net self ic ie c).1.2) = length (_roles self) /\
  length (channels self (fill net self ic ie c).1.2) = length (_channels self).
Proof.
  intros Hs Hk.
  destruct (fill_resolves net sid ic ie self c Hs Hk)
    as (c' & tr' & -> & _ & Hu & Hr & Hc).
  simpl. unfold users, roles, channels. rewrite Hs.
  split; [done|]. split; [|split]; by apply omap_all_Some.
Qed.

Lemma server_s_knows_all self :
  _users self ⊆ ["u1"; "u2"; "u3"; "u4"; "u5"; "u6"; "u7"] ->
  _roles self ⊆ ["r1"; "r2"; "r3"; "r4"; "r5"; "r6"] ->
  knows_all server_s "s" self.
Proof.
  intros Hu Hr. repeat split; try (intros; eexists; by repeat split).
  - intros n. eexists. split; [reflexivity|]. intros id Hid.
    apply list_elem_of_In, in_map, list_elem_of_In. by apply Hu.
  - intros n. eexists. split; [reflexivity|]. intros id Hid.
    apply list_elem_of_In, in_map, list_elem_of_In. by apply Hr.
Qed.

Lemma fill_resolves_every_reference_witness :
  (fill server_s six_users_two_channels false false Client.default).1.1 = Return tt /\
  length (users six_users_two_channels
            (fill server_s six_users_two_channels false false Client.default).1.2) = 6 /\
  length (roles six_users_two_channels
            (fill server_s six_users_two_channels false false Client.default).1.2) = 1 /\
  length (channels six_users_two_channels
            (fill server_s six_users_two_channels false false Client.default).1.2) = 2.
Proof.
  apply (fill_resolves_every_reference server_s "s" false false
           six_users_two_channels Client.default eq_refl).
  apply server_s_knows_all; apply (bool_decide_unpack _); vm_compute; exact I.
Defined.

(** X20: nothing is fetched for what the cache holds.  With a server
    attached, the cache not ignored and every referenced user, role and
    channel in the cache, [fill] issues no fetch at all and leaves the
    cache as it is, however many references there are. *)
Theorem fill_cached_fetches_nothing net sid ie self c :
  _server self = Some sid ->
  (forall id, id ∈ _users self -> is_Some (cached_user c (Some sid) id)) ->
  (forall id, id ∈ _roles self -> is_Some (Client._get_server_role c sid id)) ->
  (forall id, id ∈ _channels self ->
              is_Some (Client._get_server_channel_or_thread c sid id)) ->
  fill net self false ie c = (Return tt, c, []).
Proof. apply fill_cached. Qed.

Lemma fill_cached_fetches_nothing_witness :
  fill refusing_everything one_of_each false false warm_cache
  = (Return tt, warm_cache, []).
Proof.
  apply (fill_cached_fetches_nothing refusing_everything "s" false
           one_of_each warm_cache eq_refl);
    intros id ->%list_elem_of_singleton; vm_compute; by eexists.
Defined.

(** X21: a second fill costs nothing.  After a [fill] against a remote
    end that knows everything referred to, another [fill] of the same
    mention data with the cache not ignored issues no fetch, whatever the
    remote end does by then. *)
Theorem fill_twice_fetches_once net net' sid ic ie ie' self c :
  _server self = Some sid -> knows_all net sid self ->
  fill net' self false ie' (fill net self ic ie c).1.2
  = (Return tt, (fill net self ic ie c).1.2, []).
Proof.
  intros Hs Hk.
  destruct (fill_resolves net sid ic ie self c Hs Hk)
    as (c' & tr' & -> & _ & Hu & Hr & Hc).
  simpl. by apply (fill_cached net' sid).
Qed.

Lemma fill_twice_fetches_once_witness :
  fill refusing_everything six_users_two_channels false false
    (fill server_s six_users_two_channels true false Client.default).1.2
  = (Return tt,
     (fill server_s six_users_two_channels true false Client.default).1.2, []).
Proof.
  apply (fill_twice_fetches_once server_s refusing_everything "s" true false false
           six_users_two_channels Client.default eq_refl).
  apply server_s_knows_all; apply (bool_decide_unpack _); vm_compute; exact I.
Defined.

End FillResolvesClaims.

(** ** Mentions.fill: failures, flags and direct messages *)

Section FillFailures.
Import Mentions.

Variable net : network.
Variables ic ie : bool.

Lemma stops_return c tr : stops_at_failure net ie (Return tt, c, tr).
Proof. done. Qed.

(** An individual fetch that failed and was not swallowed. *)
Lemma stops_guarded {A} (r : result A) e c tr x :
  guarded ie r = Raise e ->
  (forall e', r = Raise e' -> raised_by net (length tr) x e') ->
  is_bulk x = false ->
  stops_at_failure net ie (Raise e, c, tr ++ [x]).
Proof.
  intros Hg Hr Hb. unfold stops_at_failure. simpl. exists tr, x.
  destruct r as [a|e']; [done|]. simpl in Hg.
  destruct (is_HTTPException e' && ie) eqn:E; [done|]. injection Hg as <-.
  split; [done|]. split; [by apply Hr|].
  intros ->. right. by rewrite andb_true_r in E.
Qed.

Lemma fill_each_user_stops server refs : forall c tr,
  stops_at_failure net ie (fill_each_user net server ic ie refs c tr).
Proof.
  induction refs as [|id refs IH]; intros c tr; [done|].
  cbn [fill_each_user]. destruct (ic || _); [|apply IH].
  destruct server as [sid|].
  - destruct (guarded ie (fetch_member net (length tr) sid id)) as [[m|]|e] eqn:E;
      [apply IH|apply IH|].
    by apply (stops_guarded (fetch_member net (length tr) sid id)).
  - destruct (guarded ie (get_user net (length tr) id)) as [[u|]|e] eqn:E;
      [apply IH|apply IH|].
    by apply (stops_guarded (get_user net (length tr) id)).
Qed.

Lemma fill_each_role_stops sid refs : forall c tr,
  stops_at_failure net ie (fill_each_role net sid ic ie refs c tr).
Proof.
  induction refs as [|id refs IH]; intros c tr; [done|].
  cbn [fill_each_role]. destruct (ic || _); [|apply IH].
  destruct (guarded ie (fetch_role net (length tr) sid id)) as [[r|]|e] eqn:E;
    [apply IH|apply IH|].
  by apply (stops_guarded (fetch_role net (length tr) sid id)).
Qed.

Lemma fill_each_channel_stops sid refs : forall c tr,
  stops_at_failure net ie (fill_each_channel net sid ic ie refs c tr).
Proof.
  induction refs as [|id refs IH]; intros c tr; [done|].
  cbn [fill_each_channel]. destruct (ic || _); [|apply IH].
  destruct (guarded ie (fetch_channel net (length tr) sid id)) as [[ch|]|e] eqn:E;
    [apply IH|apply IH|].
  by apply (stops_guarded (fetch_channel net (length tr) sid id)).
Qed.

Lemma fill_stops self c sid :
  _server self = Some sid ->
  stops_at_failure net ie (fill net self ic ie c).
Proof.
  intros Hs. unfold fill.
  assert (Hu : stops_at_failure net ie (fill_users net self ic ie c [])).
  { unfold fill_users. rewrite Hs. destruct (bulk_path _ _ _ _).
    - destruct (fetch_members net (length []) sid) as [ms|e] eqn:E; [done|].
      exists [], (call_fetch_members sid). repeat split; [done|]. by left.
    - apply fill_each_user_stops. }
  destruct (fill_users net self ic ie c []) as [[[[]|e] c1] tr1]; [|done].
  assert (Hr : stops_at_failure net ie (fill_roles net self ic ie c1 tr1)).
  { unfold fill_roles. rewrite Hs. destruct (bulk_path _ _ _ _).
    - destruct (fetch_roles net (length tr1) sid) as [rs|e] eqn:E; [done|].
      exists tr1, (call_fetch_roles sid). repeat split; [done|]. by left.
    - apply fill_each_role_stops. }
  destruct (fill_roles net self ic ie c1 tr1) as [[[[]|e] c2] tr2]; [|done].
  unfold fill_channels. rewrite Hs. apply fill_each_channel_stops.
Qed.

End FillFailures.

Section FillCompletes.
Import Mentions.

Variable net : network.
Variable ic : bool.
Hypothesis Hnet : fails_with_http_only net.

Lemma guarded_http_only {A} (r : result A) :
  (forall e, r = Raise e -> is_HTTPException e = true) ->
  exists o, guarded true r = Return o.
Proof.
  intros H. destruct r as [a|e]; simpl; [eauto|].
  rewrite (H e eq_refl). eauto.
Qed.

Lemma fill_each_user_completes server refs : forall c tr,
  (fill_each_user net server ic true refs c tr).1.1 = Return tt.
Proof.
  destruct Hnet as (Hm & Hu & _ & _).
  induction refs as [|id refs IH]; intros c tr; [done|].
  cbn [fill_each_user]. destruct (ic || _); [|apply IH].
  destruct server as [sid|].
  - destruct (guarded_http_only (fetch_member net (length tr) sid id)) as [[m|] ->];
      [apply Hm|apply IH..].
  - destruct (guarded_http_only (get_user net (length tr) id)) as [[u|] ->];
      [apply Hu|apply IH..].
Qed.

Lemma fill_each_role_completes sid refs : forall c tr,
  (fill_each_role net sid ic true refs c tr).1.1 = Return tt.
Proof.
  destruct Hnet as (_ & _ & Hr & _).
  induction refs as [|id refs IH]; intros c tr; [done|].
  cbn [fill_each_role]. destruct (ic || _); [|apply IH].
  destruct (guarded_http_only (fetch_role net (length tr) sid id)) as [[r|] ->];
    [apply Hr|apply IH..].
Qed.

Lemma fill_each_channel_completes sid refs : forall c tr,
  (fill_each_channel net sid ic true refs c tr).1.1 = Return tt.
Proof.
  destruct Hnet as (_ & _ & _ & Hc).
  induction refs as [|id refs IH]; intros c tr; [done|].
  cbn [fill_each_channel]. destruct (ic || _); [|apply IH].
  destruct (guarded_http_only (fetch_channel net (length tr) sid id)) as [[ch|] ->];
    [apply Hc|apply IH..].
Qed.

Lemma fill_completes self c sid :
  _server self = Some sid ->
  length (_users self) < 5 -> length (_roles self) < 5 ->
  (fill net self ic true c).1.1 = Return tt.
Proof.
  intros Hs Hu Hr. unfold fill, fill_users, fill_roles, fill_channels. rewrite Hs.
  rewrite bulk_path_few by done.
  pose proof (fill_each_user_completes (Some sid) (_users self) c []) as H1.
  destruct (fill_each_user net (Some sid) ic true (_users self) c [])
    as [[r1 c1] tr1]. simpl in H1. subst r1.
  rewrite bulk_path_few by done.
  pose proof (fill_each_role_completes sid (_roles self) c1 tr1) as H2.
  destruct (fill_each_role net sid ic true (_roles self) c1 tr1)
    as [[r2 c2] tr2]. simpl in H2. subst r2.
  apply fill_each_channel_completes.
Qed.

End FillCompletes.

Section FillBulkAndDM.
Import Mentions.

(** The population from a fetched member list leaves alone every entry
    whose identifier is not referenced. *)
Lemma populate_members_other refs fetched k : forall c,
  k.2 ∉ refs ->
  Client._server_members
    (foldl (fun c member =>
              if id_in (Member_id member) refs
              then Client.add_to_member_cache c member else c) c fetched) !! k
  = Client._server_members c !! k.
Proof.
  induction fetched as [|m fetched IH]; intros c Hk; simpl; [done|].
  rewrite IH by done. destruct (id_in (Member_id m) refs) eqn:E; [|done].
  simpl. apply lookup_insert_ne. intros <-. apply Hk. simpl. by apply id_in_elem.
Qed.

Lemma populate_members_rest refs fetched : forall c,
  let c' := foldl (fun c member =>
                     if id_in (Member_id member) refs
                     then Client.add_to_member_cache c member else c) c fetched in
  Client._users c' = Client._users c /\
  Client._server_roles c' = Client._server_roles c /\
  Client._server_channels c' = Client._server_channels c /\
  Client._messages c' = Client._messages c.
Proof.
  induction fetched as [|m fetched IH]; intros c; simpl; [done|].
  destruct (IH (if id_in (Member_id m) refs
                then Client.add_to_member_cache c m else c)) as (-> & -> & -> & ->).
  by destruct (id_in (Member_id m) refs).
Qed.

Lemma fill_each_user_dm net ic ie refs : forall c tr,
  extends (fun x => exists id, id ∈ refs /\ x = call_get_user id) tr
          (fill_each_user net None ic ie refs c tr).
Proof.
  induction refs as [|id refs IH]; intros c tr; [apply extends_nil|].
  assert (Hw : forall o tr', 
            extends (fun x => exists id, id ∈ refs /\ x = call_get_user id) tr' o ->
            extends (fun x => exists id0, id0 ∈ id :: refs /\ x = call_get_user id0) tr' o).
  { intros o tr'. apply extends_weaken. intros x (id0 & Hin & ->).
    exists id0. split; [by right|done]. }
  cbn [fill_each_user]. destruct (ic || _); [|apply Hw, IH].
  assert (Hx : exists id0, id0 ∈ id :: refs /\ call_get_user id = call_get_user id0)
    by (exists id; split; [left|done]).
  destruct (guarded ie _) as [[u|]|e].
  - eapply extends_cons; [exact Hx|apply Hw, IH].
  - eapply extends_cons; [exact Hx|apply Hw, IH].
  - by apply extends_one.
Qed.

End FillBulkAndDM.

Section FillMoreClaims.
Import Mentions.

(** X22: an exception that leaves [fill] is the failure of its last
    fetch.  With a server attached, when [fill] raises, the exception is
    the one the last fetch of the trace raised, and nothing was fetched
    after it; and when [ignore_errors] is set, that fetch was a bulk
    fetch or the exception is not an [HTTPException]. *)
Theorem fill_failure_is_the_last_fetch net ic ie self c sid e :
  _server self = Some sid ->
  (fill net self ic ie c).1.1 = Raise e ->
  exists tr0 x,
    (fill net self ic ie c).2 = tr0 ++ [x] /\
    raised_by net (length tr0) x e /\
    (ie = true -> is_bulk x = true \/ is_HTTPException e = false).
Proof.
  intros Hs He. pose proof (fill_stops net ic ie self c sid Hs) as H.
  unfold stops_at_failure in H. by rewrite He in H.
Qed.

Lemma fill_failure_is_the_last_fetch_witness :
  exists tr0 x,
    (fill refusing_members three_users false false Client.default).2 = tr0 ++ [x] /\
    raised_by refusing_members (length tr0) x forbidden /\
    (false = true -> is_bulk x = true \/ is_HTTPException forbidden = false).
Proof.
  apply (fill_failure_is_the_last_fetch refusing_members false false three_users
           Client.default "s" forbidden); reflexivity.
Defined.

(** X23: with [ignore_errors] set and no bulk path, [fill] runs to its
    end.  With a server attached, fewer than five users and fewer than
    five roles referenced, and single fetches that fail with nothing but
    [HTTPException], [fill] with [ignore_errors] set returns normally,
    whichever fetches fail. *)
Theorem fill_ignore_errors_completes net ic self c sid :
  fails_with_http_only net ->
  _server self = Some sid ->
  length (_users self) < 5 -> length (_roles self) < 5 ->
  (fill net self ic true c).1.1 = Return tt.
Proof. intros Hnet. by apply fill_completes. Qed.

Lemma fill_ignore_errors_completes_witness :
  (fill refusing_everything one_of_each true true Client.default).1.1 = Return tt.
Proof.
  apply (fill_ignore_errors_completes refusing_everything true one_of_each
           Client.default "s"); [|reflexivity|simpl; lia|simpl; lia].
  repeat split; intros * H; simpl in H; injection H as <-; reflexivity.
Defined.

(** X24: the bulk path stores referenced members only.  When the user
    stage fetches the member list, the members whose identifier is not
    referenced are not stored: every entry of the member cache under
    such an identifier is as before, and the other collections of the
    cache are untouched. *)
Theorem bulk_fetch_stores_referenced_only net self ic ie c tr sid ms :
  _server self = Some sid ->
  bulk_path (Some sid) (length (_users self)) (length (users self c)) ic = true ->
  fetch_members net (length tr) sid = Return ms ->
  let c' := (fill_users net self ic ie c tr).1.2 in
  (forall k, k.2 ∉ _users self ->
             Client._server_members c' !! k = Client._server_members c !! k) /\
  Client._users c' = Client._users c /\
  Client._server_roles c' = Client._server_roles c /\
  Client._server_channels c' = Client._server_channels c /\
  Client._messages c' = Client._messages c.
Proof.
  intros Hs Hb Hms. unfold fill_users. rewrite Hs, Hb, Hms. simpl. split.
  - intros k Hk. by apply populate_members_other.
  - apply populate_members_rest.
Qed.

Lemma bulk_fetch_stores_referenced_only_witness :
  Client._get_server_member
    (fill_users server_s six_users false false Client.default []).1.2 "s" "u7" = None /\
  is_Some (Client._get_server_member
    (fill_users server_s six_users false false Client.default []).1.2 "s" "u6").
Proof.
  split; [|vm_compute; by eexists].
  unfold Client._get_server_member.
  rewrite (proj1 (bulk_fetch_stores_referenced_only server_s six_users false false
                    Client.default [] "s" _ eq_refl eq_refl eq_refl) ("s", "u7")).
  - reflexivity.
  - apply (bool_decide_unpack _). vm_compute. exact I.
Defined.

(** X25: [fill] in a direct message.  Without a server the only fetches
    [fill] issues are [get_user] fetches of referenced users: no member,
    role or channel is ever fetched.  When no role is referenced, [fill]
    is its user stage; when a role is referenced and the user stage
    returns, [fill] raises [AttributeError], the role loop reading
    [self._server.id] on [None]. *)
Theorem fill_in_direct_message net self ic ie c :
  _server self = None ->
  Forall (fun x => exists id, id ∈ _users self /\ x = call_get_user id)
         (fill net self ic ie c).2 /\
  (_roles self = [] -> fill net self ic ie c = fill_users net self ic ie c []) /\
  (_roles self <> [] ->
   (fill_users net self ic ie c []).1.1 = Return tt ->
   (fill net self ic ie c).1.1 = Raise (AttributeError "id")).
Proof.
  intros Hs. unfold fill, fill_users, fill_roles, fill_channels. rewrite Hs.
  destruct (fill_each_user_dm net ic ie (_users self) c []) as (new & E & F).
  destruct (fill_each_user net None ic ie (_users self) c [])
    as [[[[]|e] c1] tr1]; simpl in E; subst tr1; simpl.
  - destruct (_roles self) as [|r rs]; simpl; by repeat split.
  - by repeat split.
Qed.

Lemma fill_in_direct_message_witness :
  fill obliging dm_two_users false false Client.default
  = fill_users obliging dm_two_users false false Client.default [] /\
  (fill obliging dm_with_role false false Client.default).1.1
  = Raise (AttributeError "id").
Proof.
  split.
  - by apply (fill_in_direct_message obliging dm_two_users false false Client.default).
  - by apply (fill_in_direct_message obliging dm_with_role false false Client.default).
Defined.

End FillMoreClaims.
